(** * StableHLO to TFLite custom-op legalization (stablehlo_tfl_pass.cc)

    A shallow embedding of the pass [StablehloToTflPass]: the attribute
    encoder [BuildOption], its helper [AddIntegerArray], the composite
    allow-list [IsSupportedComposite] and the rewrite [runOnOperation],
    together with the part of the flexbuffers builder and of the MLIR
    operation graph that these functions drive. *)

From Stdlib Require Import ZArith String Ascii List Bool Lia Sorted.
From stdpp Require Import base option list gmap strings.

#[local] Set Warnings "-register-all".

Local Open Scope string_scope.
Local Open Scope list_scope.

(** ** The flexbuffers builder

    [flexbuffers::Builder] keeps a stack of finished values.  [Key],
    [Int], [Double], [String] and [Add] push one value; [StartVector] and
    [StartMap] return the current stack height; [EndVector] and [EndMap]
    replace everything above that height by one vector or map value.  The
    library guards its invariants with assertions: a failed assertion is
    the result [None]. *)

(** A double is carried as its IEEE-754 binary64 bit pattern. *)
Definition double := Z.

Inductive FlexValue :=
| FInt (v : Z)
| FBool (b : bool)
| FFloat (d : double)
| FKey (k : string)
| FString (s : string)
| FVector (typed : bool) (elems : list FlexValue)
| FMap (entries : list (string * FlexValue)).

Inductive FlexType :=
| FBT_INT | FBT_BOOL | FBT_FLOAT | FBT_KEY | FBT_STRING | FBT_VECTOR | FBT_MAP.

Definition FlexType_eqb (a b : FlexType) : bool :=
  match a, b with
  | FBT_INT, FBT_INT | FBT_BOOL, FBT_BOOL | FBT_FLOAT, FBT_FLOAT
  | FBT_KEY, FBT_KEY | FBT_STRING, FBT_STRING | FBT_VECTOR, FBT_VECTOR
  | FBT_MAP, FBT_MAP => true
  | _, _ => false
  end.

Definition type_of (v : FlexValue) : FlexType :=
  match v with
  | FInt _ => FBT_INT
  | FBool _ => FBT_BOOL
  | FFloat _ => FBT_FLOAT
  | FKey _ => FBT_KEY
  | FString _ => FBT_STRING
  | FVector _ _ => FBT_VECTOR
  | FMap _ => FBT_MAP
  end.

Definition IsTypedVectorElementType (t : FlexType) : bool :=
  match t with
  | FBT_INT | FBT_FLOAT | FBT_KEY | FBT_STRING | FBT_BOOL => true
  | FBT_VECTOR | FBT_MAP => false
  end.

(** The builder: its value stack, bottom first. *)
Definition Builder := list FlexValue.

Definition new_Builder : Builder := [].

Definition Add (v : FlexValue) (fbb : Builder) : Builder := fbb ++ [v].

Definition Key (key : string) (fbb : Builder) : Builder := Add (FKey key) fbb.

(** [Int(key, v)], [Double(key, v)] and [String(key, s)]: the key, then
    the value. *)
Definition Int (key : string) (v : Z) (fbb : Builder) : Builder :=
  Add (FInt v) (Key key fbb).

Definition Double (key : string) (d : double) (fbb : Builder) : Builder :=
  Add (FFloat d) (Key key fbb).

Definition String_ (key : string) (s : string) (fbb : Builder) : Builder :=
  Add (FString s) (Key key fbb).

(** [StartVector()] returns the stack height; [StartVector(key)] pushes
    the key first. *)
Definition StartVector (fbb : Builder) : nat * Builder := (length fbb, fbb).

Definition StartVector_key (key : string) (fbb : Builder) : nat * Builder :=
  StartVector (Key key fbb).

(** The check [CreateVector] makes on a typed vector: all elements have
    the type of the first one, and that type may be an element of a typed
    vector.  The type of an empty vector defaults to [FBT_KEY]. *)
Definition typed_vector_ok (elems : list FlexValue) : bool :=
  match elems with
  | [] => true
  | v :: rest =>
      forallb (fun w => FlexType_eqb (type_of v) (type_of w)) rest
      && IsTypedVectorElementType (type_of v)
  end.

Definition EndVector (start : nat) (typed fixed : bool) (fbb : Builder)
  : option Builder :=
  let elems := drop start fbb in
  if typed && negb (typed_vector_ok elems) then None
  else Some (take start fbb ++ [FVector typed elems]).

Definition StartMap (fbb : Builder) : nat * Builder := (length fbb, fbb).

(** The stack above [start] read as key, value, key, value, ...; [None]
    when a value is missing or a key position holds something else. *)
Fixpoint map_pairs (vs : list FlexValue) : option (list (string * FlexValue)) :=
  match vs with
  | [] => Some []
  | FKey k :: v :: rest =>
      match map_pairs rest with
      | Some ps => Some ((k, v) :: ps)
      | None => None
      end
  | _ => None
  end.

(** [EndMap] sorts the pairs by key ([strcmp] order). *)
Fixpoint insert_pair (p : string * FlexValue) (ps : list (string * FlexValue))
  : list (string * FlexValue) :=
  match ps with
  | [] => [p]
  | q :: rest =>
      if String.leb (fst p) (fst q) then p :: q :: rest
      else q :: insert_pair p rest
  end.

Fixpoint sort_pairs (ps : list (string * FlexValue)) : list (string * FlexValue) :=
  match ps with
  | [] => []
  | p :: rest => insert_pair p (sort_pairs rest)
  end.

Definition EndMap (start : nat) (fbb : Builder) : option Builder :=
  match map_pairs (drop start fbb) with
  | Some ps => Some (take start fbb ++ [FMap (sort_pairs ps)])
  | None => None
  end.

(** [Finish] requires exactly one value on the stack, the root. *)
Definition Finish (fbb : Builder) : option FlexValue :=
  match fbb with
  | [root] => Some root
  | _ => None
  end.

(** ** Attributes

    One constructor per attribute class that [BuildOption] tests with
    [isa], and a few of the classes it does not test.  An attribute is
    represented by what the accessors used in the source return:
    [IntegerAttr v] by [getInt()], [FloatAttr d] by [getValueAsDouble()]. *)

Inductive FloatKind := BF16 | F16 | F32 | F64 | F80 | F128.

(** The types that are neither integer nor float types. *)
Inductive OtherKind := IndexType | ComplexType | OpaqueType (name : string).

Inductive MlirType :=
| IntegerType (width : nat)
| FloatType (k : FloatKind)
| OtherType (o : OtherKind).

Definition isInteger (w : nat) (t : MlirType) : bool :=
  match t with
  | IntegerType width => Nat.eqb width w
  | _ => false
  end.

Definition isF32 (t : MlirType) : bool :=
  match t with FloatType F32 => true | _ => false end.

Definition isF64 (t : MlirType) : bool :=
  match t with FloatType F64 => true | _ => false end.

Definition isF128 (t : MlirType) : bool :=
  match t with FloatType F128 => true | _ => false end.

(** The elements of an [ElementsAttr], by element type: integers as
    [getInt()] reads them, floats as [getValueAsDouble()] reads them. *)
Inductive Elements :=
| IntegerElements (width : nat) (values : list Z)
| FloatElements (k : FloatKind) (values : list double)
| OtherElements (o : OtherKind).

Definition getElementType (e : Elements) : MlirType :=
  match e with
  | IntegerElements width _ => IntegerType width
  | FloatElements k _ => FloatType k
  | OtherElements o => OtherType o
  end.

Inductive Precision := DEFAULT | HIGH | HIGHEST.

Inductive ComparisonDirection := EQ | NE | GE | GT | LE | LT.

Inductive ComparisonType := NOTYPE | FLOAT | TOTALORDER | SIGNED | UNSIGNED.

Record ConvDimensionNumbers := {
  getInputBatchDimension : Z;
  getInputFeatureDimension : Z;
  getInputSpatialDimensions : list Z;
  getKernelInputFeatureDimension : Z;
  getKernelOutputFeatureDimension : Z;
  getKernelSpatialDimensions : list Z;
  getOutputBatchDimension : Z;
  getOutputFeatureDimension : Z;
  getOutputSpatialDimensions : list Z
}.

Record GatherDimensionNumbers := {
  getOffsetDims : list Z;
  getCollapsedSliceDims : list Z;
  getStartIndexMap : list Z;
  gather_getIndexVectorDim : Z
}.

Record ScatterDimensionNumbers := {
  getUpdateWindowDims : list Z;
  getInsertedWindowDims : list Z;
  getScatterDimsToOperandDims : list Z;
  scatter_getIndexVectorDim : Z
}.

Record DotDimensionNumbers := {
  getLhsBatchingDimensions : list Z;
  getRhsBatchingDimensions : list Z;
  getLhsContractingDimensions : list Z;
  getRhsContractingDimensions : list Z
}.

Inductive Attribute :=
| IntegerAttr (v : Z)
| FloatAttr (d : double)
| ElementsAttr (e : Elements)
| DenseI64ArrayAttr (l : list Z)
| DenseBoolArrayAttr (l : list bool)
| StringAttr (s : string)
| ArrayAttr (l : list Attribute)
| PrecisionAttr (p : Precision)
| ConvDimensionNumbersAttr (c : ConvDimensionNumbers)
| GatherDimensionNumbersAttr (g : GatherDimensionNumbers)
| ScatterDimensionNumbersAttr (s : ScatterDimensionNumbers)
| DotDimensionNumbersAttr (d : DotDimensionNumbers)
| ComparisonDirectionAttr (d : ComparisonDirection)
| ComparisonTypeAttr (t : ComparisonType)
| DictionaryAttr (l : list (string * Attribute))
| SymbolRefAttr (s : string)
| TypeAttr (t : MlirType)
| ConstBytesAttr (content : string)
| UnitAttr.

Definition NamedAttribute : Type := string * Attribute.

Definition Location := nat.

(** A warning: where, and the message text. *)
Definition Diagnostic : Type := Location * string.

Inductive LogicalResult := success | failure.

Definition isa_StringAttr (a : Attribute) : bool :=
  match a with StringAttr _ => true | _ => false end.

Definition isa_PrecisionAttr (a : Attribute) : bool :=
  match a with PrecisionAttr _ => true | _ => false end.

Definition dyn_cast_or_null_StringAttr (a : Attribute) : option string :=
  match a with StringAttr s => Some s | _ => None end.

(** [getValues<IntegerAttr>()] and [getValues<FloatAttr>()]. *)
Definition getValues_IntegerAttr (e : Elements) : list Z :=
  match e with IntegerElements _ vs => vs | _ => [] end.

Definition getValues_FloatAttr (e : Elements) : list double :=
  match e with FloatElements _ vs => vs | _ => [] end.

(** A range-for loop whose body is one [fbb->Add(x)]. *)
Definition Add_each {A} (f : A -> FlexValue) (xs : list A) (fbb : Builder)
  : Builder :=
  fold_left (fun b x => Add (f x) b) xs fbb.

(** ** The attribute encoder *)

Definition AddIntegerArray (vec : list Z) (fbb : Builder) : option Builder :=
  let '(start_input_dim, fbb) := StartVector fbb in
  let fbb := Add_each FInt vec fbb in
  EndVector start_input_dim false false fbb.

(** The size-and-first-element test of the [ArrayAttr] branch. *)
Definition array_rejected (array_attr : list Attribute) : bool :=
  match array_attr with
  | first :: _ :: _ =>
      negb (isa_StringAttr first) && negb (isa_PrecisionAttr first)
  | _ => false
  end.

Definition warn_elements (key : string) : string :=
  "serialization of ElementsAttr for " ++ key
    ++ " only supports Integer and Float.".

Definition warn_array (key : string) : string :=
  "serialization of ArrayAttr for " ++ key ++ " only supports Strings.".

Definition warn_default (key : string) : string :=
  "serialization not supported for : " ++ key.


(** ** The operation graph

    An operation is a node of a tree: it owns the operations nested in
    its regions.  [replaceAllUsesWith] writes into the operand lists of
    other operations anywhere in the function, so operand lists live in a
    store keyed by the identity of the operation (its address), and the
    tree carries everything else. *)

Inductive Value :=
| OpResult (owner : nat) (index : nat)
| BlockArgument (block : nat) (index : nat).

(** What [dyn_cast<CompositeOp>] gives access to. *)
Record CompositeOp := {
  composite_getName : string;
  getCompositeAttributes : list NamedAttribute
}.

Record OpInfo := {
  op_id : nat;
  op_dialect : string;
  op_name : string;
  op_attrs : list NamedAttribute;
  op_result_types : list MlirType;
  op_loc : Location;
  op_composite : option CompositeOp
}.

(** The nested operations are listed in walk order, each with the index
    of the region and of the block it sits in. *)
Inductive Operation :=
| Op (info : OpInfo) (body : Body)
with Body :=
| BNil
| BCons (region block : nat) (op : Operation) (rest : Body).

Scheme Operation_mut := Induction for Operation Sort Prop
  with Body_mut := Induction for Body Sort Prop.

Definition info_of (o : Operation) : OpInfo :=
  match o with Op info _ => info end.


Fixpoint op_ids (o : Operation) : list nat :=
  match o with
  | Op info body => op_id info :: body_ids body
  end
with body_ids (b : Body) : list nat :=
  match b with
  | BNil => []
  | BCons _ _ o rest => op_ids o ++ body_ids rest
  end.

(** No operation of the tree belongs to the given dialect. *)
Fixpoint no_dialect_op (d : string) (o : Operation) : bool :=
  match o with
  | Op info body => negb (String.eqb (op_dialect info) d) && no_dialect_body d body
  end
with no_dialect_body (d : string) (b : Body) : bool :=
  match b with
  | BNil => true
  | BCons _ _ o rest => no_dialect_op d o && no_dialect_body d rest
  end.

(** The operand store and the warnings emitted so far. *)
Record PassState := {
  st_operands : gmap nat (list Value);
  st_diags : list Diagnostic
}.

Definition getOperands (id : nat) (st : PassState) : list Value :=
  default [] (st_operands st !! id).

(** [builder.create<TFL::CustomOp>(loc, result_types, operands,
    custom_code, custom_option)]: a [tfl.custom] operation at a new
    address, without regions. *)
Definition create_CustomOp (id : nat) (loc : Location)
    (result_types : list MlirType) (custom_code : string)
    (custom_option : Attribute) : Operation :=
  Op {| op_id := id;
        op_dialect := "tfl";
        op_name := "tfl.custom";
        op_attrs := [("custom_code", StringAttr custom_code);
                     ("custom_option", custom_option)];
        op_result_types := result_types;
        op_loc := loc;
        op_composite := None |} BNil.

(** One use, after [replaceAllUsesWith]: result [k] of the old operation
    becomes result [k] of the new one. *)
Definition rewire (old new : nat) (v : Value) : Value :=
  match v with
  | OpResult owner k => if Nat.eqb owner old then OpResult new k else v
  | BlockArgument _ _ => v
  end.

Definition replaceAllUsesWith (old new : nat) (ops : gmap nat (list Value))
  : gmap nat (list Value) :=
  (fun operands => map (rewire old new) operands) <$> ops.

(** [op->erase()] destroys the operation and everything nested in it. *)
Definition erase (o : Operation) (ops : gmap nat (list Value))
  : gmap nat (list Value) :=
  foldr delete ops (op_ids o).

Definition supported_composites : list string :=
  ["odml.update_kv_cache"; "odml.scaled_dot_product_attention"].

Definition IsSupportedComposite (op : CompositeOp) (loc : Location)
  : bool * list Diagnostic :=
  let op_name := composite_getName op in
  if existsb (String.eqb op_name) supported_composites then (true, [])
  else (false, [(loc, ("composite has no specializaiton " ++ op_name)%string)]).

Definition CustomOption (content : string) : Attribute := ConstBytesAttr content.

(** ** The bytes of a map without entries

    With nothing on the stack, [EndMap] creates the vector of the keys,
    of which only the length is written, and then the map: the offset to
    the keys, the byte width of the keys and the length.  [Finish] writes
    the offset to the map, the packed type of the root and the byte width
    of the root.  Every width is one byte. *)

Definition Write (v : nat) (buf : list nat) : list nat := buf ++ [v].

(** [WriteOffset]: the distance from the place of writing back to [o]. *)
Definition WriteOffset (o : nat) (buf : list nat) : list nat :=
  Write (length buf - o) buf.

Definition FBT_MAP_code : nat := 9.

Definition PackedType (bit_width type : nat) : nat := bit_width + 4 * type.

Definition empty_map_bytes : list nat :=
  let buf := [] in
  (* keys = CreateVector(start, 0, 2, true, false) *)
  let buf := Write 0 buf in
  let keys := length buf in
  (* vec = CreateVector(start + 1, 0, 2, false, false, &keys) *)
  let buf := WriteOffset keys buf in
  let buf := Write 1 buf in
  let buf := Write 0 buf in
  let vec := length buf in
  (* Finish *)
  let buf := WriteOffset vec buf in
  let buf := Write (PackedType 0 FBT_MAP_code) buf in
  Write 1 buf.

Definition empty_map_buffer : string :=
  string_of_list_ascii (map ascii_of_nat empty_map_bytes).

(** Reading a buffer back, as [flexbuffers::GetRoot], [Reference::AsMap]
    and [Map::size] do, with the bounds checked: the last byte is the
    byte width of the root, the one before it the packed type, before
    them the root, an offset back to the map, whose length stands just
    before it. *)
Definition byte_at (buffer : string) (pos : nat) : option nat :=
  match String.get pos buffer with
  | Some c => Some (nat_of_ascii c)
  | None => None
  end.

(** Little-endian. *)
Fixpoint ReadUInt64 (buffer : string) (pos byte_width : nat) : option nat :=
  match byte_width with
  | 0 => Some 0
  | S w =>
      match byte_at buffer pos, ReadUInt64 buffer (S pos) w with
      | Some b, Some rest => Some (b + 256 * rest)
      | _, _ => None
      end
  end.

(** The number of entries of the map at the root of a buffer; [None] when
    the root is not a map or the buffer is too short. *)
Definition root_map_size (buffer : string) : option nat :=
  let size := String.length buffer in
  match byte_at buffer (size - 1), byte_at buffer (size - 2) with
  | Some parent_width, Some packed_type =>
      if (Nat.ltb size 3 || Nat.ltb (size - 2) parent_width
          || negb (Nat.eqb (packed_type / 4) FBT_MAP_code))%bool
      then None
      else
        let data := size - 2 - parent_width in
        let byte_width := 2 ^ (packed_type mod 4) in
        match ReadUInt64 buffer data parent_width with
        | Some offset =>
            if (Nat.ltb data offset || Nat.ltb (data - offset) byte_width)%bool
            then None
            else ReadUInt64 buffer (data - offset - byte_width) byte_width
        | None => None
        end
  | _, _ => None
  end.

(** ** Sample inputs

    The names of the enumeration cases as StableHLO prints them, a buffer
    layout with a one-byte root, and a small function:
    [%1 = stablehlo.add(%arg0, %arg1) {axis, scale}; return %1]. *)

Definition stablehlo_stringifyPrecision (p : Precision) : string :=
  match p with DEFAULT => "DEFAULT" | HIGH => "HIGH" | HIGHEST => "HIGHEST" end.

Definition stablehlo_stringifyComparisonDirection (d : ComparisonDirection)
  : string :=
  match d with
  | EQ => "EQ" | NE => "NE" | GE => "GE" | GT => "GT" | LE => "LE" | LT => "LT"
  end.

Definition stablehlo_stringifyComparisonType (t : ComparisonType) : string :=
  match t with
  | NOTYPE => "NOTYPE" | FLOAT => "FLOAT" | TOTALORDER => "TOTALORDER"
  | SIGNED => "SIGNED" | UNSIGNED => "UNSIGNED"
  end.

Definition sample_WriteAny_root (root : FlexValue) : string :=
  String zero EmptyString.

Definition sample_StoredPackedType (root : FlexValue) : ascii :=
  match type_of root with
  | FBT_MAP => "$"%char
  | _ => zero
  end.

Definition sample_root_byte_width (root : FlexValue) : ascii := one.

Definition sample_add_info : OpInfo :=
  {| op_id := 1;
     op_dialect := "stablehlo";
     op_name := "stablehlo.add";
     op_attrs := [("axis", IntegerAttr 1%Z);
                 ("scale", FloatAttr 4612811918334230528%Z)];
     op_result_types := [FloatType F32];
     op_loc := 5;
     op_composite := None |}.

Definition sample_return : Operation :=
  Op {| op_id := 2; op_dialect := "func"; op_name := "func.return";
        op_attrs := []; op_result_types := []; op_loc := 6;
        op_composite := None |} BNil.

Definition sample_func_info : OpInfo :=
  {| op_id := 0; op_dialect := "func"; op_name := "func.func";
     op_attrs := []; op_result_types := []; op_loc := 4;
     op_composite := None |}.

Definition sample_state : PassState :=
  {| st_operands :=
       {[ 0 := []; 1 := [BlockArgument 0 0; BlockArgument 0 1];
          2 := [OpResult 1 0] ]};
     st_diags := [] |}.


Definition sample_custom_call_info : OpInfo :=
  {| op_id := 1; op_dialect := "stablehlo"; op_name := "stablehlo.custom_call";
     op_attrs := [("called_computations", ArrayAttr [SymbolRefAttr "f"])];
     op_result_types := [FloatType F32]; op_loc := 5;
     op_composite := None |}.

Definition sample_bare_info : OpInfo :=
  {| op_id := 1; op_dialect := "stablehlo"; op_name := "stablehlo.abs";
     op_attrs := []; op_result_types := [FloatType F32]; op_loc := 5;
     op_composite := None |}.

Section Pass.

(** The names StableHLO gives to its enumeration cases. *)
Variable stringifyPrecision : Precision -> string.
Variable stringifyComparisonDirection : ComparisonDirection -> string.
Variable stringifyComparisonType : ComparisonType -> string.

(** The loop of the [ArrayAttr] branch.  For an element that is neither a
    precision tag nor a string, [dyn_cast_or_null<StringAttr>] gives the
    null attribute and [data()] dereferences it: [None]. *)
Fixpoint add_array_values (values : list Attribute) (fbb : Builder)
  : option Builder :=
  match values with
  | [] => Some fbb
  | value :: rest =>
      match value with
      | PrecisionAttr p =>
          add_array_values rest (Add (FString (stringifyPrecision p)) fbb)
      | _ =>
          match dyn_cast_or_null_StringAttr value with
          | Some string_value =>
              add_array_values rest (Add (FString string_value) fbb)
          | None => None
          end
      end
  end.

(** [BuildOption]: the result, the builder and the warnings emitted;
    [None] when the call does not return. *)
Definition BuildOption (fbb : Builder) (loc : Location) (pair : NamedAttribute)
  : option (LogicalResult * Builder * list Diagnostic) :=
  let key := fst pair in
  match snd pair with
  | IntegerAttr v => Some (success, Int key v fbb, [])
  | FloatAttr d => Some (success, Double key d fbb, [])
  | ElementsAttr array_attr =>
      let '(start, fbb) := StartVector_key key fbb in
      let ftype := getElementType array_attr in
      let '(fbb, diags) :=
        if isInteger 16 ftype || isInteger 32 ftype || isInteger 64 ftype
           || isInteger 128 ftype || isInteger 1 ftype
        then (Add_each FInt (getValues_IntegerAttr array_attr) fbb, [])
        else if isF32 ftype || isF64 ftype || isF128 ftype
        then (Add_each FFloat (getValues_FloatAttr array_attr) fbb, [])
        else (fbb, [(loc, warn_elements key)]) in
      fbb ← EndVector start true false fbb;
      Some (success, fbb, diags)
  | DenseI64ArrayAttr array_attr =>
      let '(start, fbb) := StartVector_key key fbb in
      let fbb := Add_each FInt array_attr fbb in
      fbb ← EndVector start true false fbb;
      Some (success, fbb, [])
  | DenseBoolArrayAttr array_attr =>
      let '(start, fbb) := StartVector_key key fbb in
      let fbb := Add_each FBool array_attr fbb in
      fbb ← EndVector start true false fbb;
      Some (success, fbb, [])
  | StringAttr s => Some (success, String_ key s fbb, [])
  | ArrayAttr array_attr =>
      let '(start, fbb) := StartVector_key key fbb in
      if array_rejected array_attr
      then Some (success, fbb, [(loc, warn_array key)])
      else
        fbb ← add_array_values array_attr fbb;
        fbb ← EndVector start true false fbb;
        Some (success, fbb, [])
  | ConvDimensionNumbersAttr dimension_attr =>
      let '(start, fbb) := StartVector_key key fbb in
      let fbb := Add (FInt (getInputBatchDimension dimension_attr)) fbb in
      let fbb := Add (FInt (getInputFeatureDimension dimension_attr)) fbb in
      fbb ← AddIntegerArray (getInputSpatialDimensions dimension_attr) fbb;
      let fbb := Add (FInt (getKernelInputFeatureDimension dimension_attr)) fbb in
      let fbb := Add (FInt (getKernelOutputFeatureDimension dimension_attr)) fbb in
      fbb ← AddIntegerArray (getKernelSpatialDimensions dimension_attr) fbb;
      let fbb := Add (FInt (getOutputBatchDimension dimension_attr)) fbb in
      let fbb := Add (FInt (getOutputFeatureDimension dimension_attr)) fbb in
      fbb ← AddIntegerArray (getOutputSpatialDimensions dimension_attr) fbb;
      fbb ← EndVector start false false fbb;
      Some (success, fbb, [])
  | GatherDimensionNumbersAttr dimension_attr =>
      let '(start, fbb) := StartVector_key key fbb in
      fbb ← AddIntegerArray (getOffsetDims dimension_attr) fbb;
      fbb ← AddIntegerArray (getCollapsedSliceDims dimension_attr) fbb;
      fbb ← AddIntegerArray (getStartIndexMap dimension_attr) fbb;
      let fbb := Add (FInt (gather_getIndexVectorDim dimension_attr)) fbb in
      fbb ← EndVector start false false fbb;
      Some (success, fbb, [])
  | ScatterDimensionNumbersAttr dimension_attr =>
      let '(start, fbb) := StartVector_key key fbb in
      fbb ← AddIntegerArray (getUpdateWindowDims dimension_attr) fbb;
      fbb ← AddIntegerArray (getInsertedWindowDims dimension_attr) fbb;
      fbb ← AddIntegerArray (getScatterDimsToOperandDims dimension_attr) fbb;
      let fbb := Add (FInt (scatter_getIndexVectorDim dimension_attr)) fbb in
      fbb ← EndVector start false false fbb;
      Some (success, fbb, [])
  | DotDimensionNumbersAttr dimension_attr =>
      let '(start, fbb) := StartVector_key key fbb in
      fbb ← AddIntegerArray (getLhsBatchingDimensions dimension_attr) fbb;
      fbb ← AddIntegerArray (getRhsBatchingDimensions dimension_attr) fbb;
      fbb ← AddIntegerArray (getLhsContractingDimensions dimension_attr) fbb;
      fbb ← AddIntegerArray (getRhsContractingDimensions dimension_attr) fbb;
      fbb ← EndVector start false false fbb;
      Some (success, fbb, [])
  | ComparisonDirectionAttr d =>
      Some (success, String_ key (stringifyComparisonDirection d) fbb, [])
  | ComparisonTypeAttr t =>
      Some (success, String_ key (stringifyComparisonType t) fbb, [])
  | _ => Some (failure, fbb, [(loc, warn_default key)])
  end.


(** The byte layout of the buffer is the library's: [Finish] writes the
    root, then one byte for its packed type and one for its byte width.
    For a map without entries the bytes are those written out above. *)
Variable WriteAny_root : FlexValue -> string.
Variable StoredPackedType : FlexValue -> ascii.
Variable root_byte_width : FlexValue -> ascii.

Definition GetBuffer (root : FlexValue) : string :=
  match root with
  | FMap [] => empty_map_buffer
  | _ =>
      (WriteAny_root root
         ++ String (StoredPackedType root)
              (String (root_byte_width root) EmptyString))%string
  end.

(** The loop over [options]; the result of [BuildOption] is dropped. *)
Fixpoint BuildOptions (options : list NamedAttribute) (loc : Location)
    (fbb : Builder) : option (Builder * list Diagnostic) :=
  match options with
  | [] => Some (fbb, [])
  | named_attr :: rest =>
      '(_, fbb, d1) ← BuildOption fbb loc named_attr;
      '(fbb, d2) ← BuildOptions rest loc fbb;
      Some (fbb, d1 ++ d2)
  end.

(** "Build options": the map, as a value and as bytes. *)
Definition options_map (options : list NamedAttribute) (loc : Location)
  : option (FlexValue * list Diagnostic) :=
  let '(map_start, fbb) := StartMap new_Builder in
  '(fbb, diags) ← BuildOptions options loc fbb;
  fbb ← EndMap map_start fbb;
  root ← Finish fbb;
  Some (root, diags).

Definition custom_option_buffer (options : list NamedAttribute) (loc : Location)
  : option (string * list Diagnostic) :=
  '(root, diags) ← options_map options loc;
  Some (GetBuffer root, diags).

(** "Get op name and attributes, unpacks some composites". *)
Definition name_and_options (info : OpInfo)
  : string * list NamedAttribute * list Diagnostic :=
  match op_composite info with
  | Some composite =>
      let '(supported, diags) := IsSupportedComposite composite (op_loc info) in
      if supported
      then (composite_getName composite, getCompositeAttributes composite, diags)
      else (op_name info, op_attrs info, diags)
  | None => (op_name info, op_attrs info, [])
  end.

(** "Build options" and "Build custom op": the replacement of [op] by a
    [tfl.custom] operation named [custom_op_name] that carries [options]. *)
Definition build_custom_op (op : Operation) (st : PassState)
    (custom_op_name : string) (options : list NamedAttribute)
    (d1 : list Diagnostic) : option (Operation * PassState) :=
  let info := info_of op in
  '(buffer, d2) ← custom_option_buffer options (op_loc info);
  let new_id := fresh (dom (st_operands st)) in
  let tfl_custom_op :=
    create_CustomOp new_id (op_loc info) (op_result_types info)
      custom_op_name (CustomOption buffer) in
  let ops := <[new_id := getOperands (op_id info) st]> (st_operands st) in
  let ops := replaceAllUsesWith (op_id info) new_id ops in
  let ops := erase op ops in
  Some (tfl_custom_op,
        {| st_operands := ops; st_diags := st_diags st ++ d1 ++ d2 |}).

(** The body of the lambda given to [fn.walk]: the operation now at the
    position of [op], and the new state. *)
Definition legalize (op : Operation) (st : PassState)
  : option (Operation * PassState) :=
  let info := info_of op in
  if negb (String.eqb (op_dialect info) "stablehlo") then Some (op, st)
  else
    let '(custom_op_name, options, d1) := name_and_options info in
    build_custom_op op st custom_op_name options d1.

(** [fn.walk]: post-order, every operation once; an operation created by
    the callback is not visited. *)
Fixpoint walk (o : Operation) (st : PassState) : option (Operation * PassState) :=
  match o with
  | Op info body =>
      '(body, st) ← walk_body body st;
      legalize (Op info body) st
  end
with walk_body (b : Body) (st : PassState) : option (Body * PassState) :=
  match b with
  | BNil => Some (BNil, st)
  | BCons region block o rest =>
      '(o, st) ← walk o st;
      '(rest, st) ← walk_body rest st;
      Some (BCons region block o rest, st)
  end.

Definition runOnOperation (fn : Operation) (st : PassState)
  : option (Operation * PassState) :=
  walk fn st.

(** ** What the encoder is expected to produce

    The value bound to the key of an attribute, and the warnings of one
    call, written out per attribute class.  [BuildOption_spec] below
    relates them to [BuildOption]. *)

(** The attribute classes that have a branch in [BuildOption]. *)
Definition handled (a : Attribute) : bool :=
  match a with
  | IntegerAttr _ | FloatAttr _ | ElementsAttr _ | DenseI64ArrayAttr _
  | DenseBoolArrayAttr _ | StringAttr _ | ArrayAttr _
  | ConvDimensionNumbersAttr _ | GatherDimensionNumbersAttr _
  | ScatterDimensionNumbersAttr _ | DotDimensionNumbersAttr _
  | ComparisonDirectionAttr _ | ComparisonTypeAttr _ => true
  | _ => false
  end.

Definition integer_elements_supported (ftype : MlirType) : bool :=
  isInteger 16 ftype || isInteger 32 ftype || isInteger 64 ftype
  || isInteger 128 ftype || isInteger 1 ftype.

Definition float_elements_supported (ftype : MlirType) : bool :=
  isF32 ftype || isF64 ftype || isF128 ftype.

Definition elements_supported (e : Elements) : bool :=
  integer_elements_supported (getElementType e)
  || float_elements_supported (getElementType e).

Definition elements_values (e : Elements) : list FlexValue :=
  if integer_elements_supported (getElementType e)
  then map FInt (getValues_IntegerAttr e)
  else if float_elements_supported (getElementType e)
  then map FFloat (getValues_FloatAttr e)
  else [].

Definition string_or_precision (a : Attribute) : bool :=
  isa_StringAttr a || isa_PrecisionAttr a.

(** The entry of one list element that is a string or a precision tag. *)
Definition array_entry (a : Attribute) : FlexValue :=
  match a with
  | PrecisionAttr p => FString (stringifyPrecision p)
  | StringAttr s => FString s
  | _ => FString ""
  end.

Definition int_vector (l : list Z) : FlexValue := FVector false (map FInt l).

Definition conv_fields (c : ConvDimensionNumbers) : list FlexValue :=
  [FInt (getInputBatchDimension c);
   FInt (getInputFeatureDimension c);
   int_vector (getInputSpatialDimensions c);
   FInt (getKernelInputFeatureDimension c);
   FInt (getKernelOutputFeatureDimension c);
   int_vector (getKernelSpatialDimensions c);
   FInt (getOutputBatchDimension c);
   FInt (getOutputFeatureDimension c);
   int_vector (getOutputSpatialDimensions c)].

Definition encoded_value (a : Attribute) : option FlexValue :=
  match a with
  | IntegerAttr v => Some (FInt v)
  | FloatAttr d => Some (FFloat d)
  | ElementsAttr e => Some (FVector true (elements_values e))
  | DenseI64ArrayAttr l => Some (FVector true (map FInt l))
  | DenseBoolArrayAttr l => Some (FVector true (map FBool l))
  | StringAttr s => Some (FString s)
  | ArrayAttr l => Some (FVector true (map array_entry l))
  | ConvDimensionNumbersAttr c => Some (FVector false (conv_fields c))
  | GatherDimensionNumbersAttr g =>
      Some (FVector false
              [int_vector (getOffsetDims g);
               int_vector (getCollapsedSliceDims g);
               int_vector (getStartIndexMap g);
               FInt (gather_getIndexVectorDim g)])
  | ScatterDimensionNumbersAttr g =>
      Some (FVector false
              [int_vector (getUpdateWindowDims g);
               int_vector (getInsertedWindowDims g);
               int_vector (getScatterDimsToOperandDims g);
               FInt (scatter_getIndexVectorDim g)])
  | DotDimensionNumbersAttr g =>
      Some (FVector false
              [int_vector (getLhsBatchingDimensions g);
               int_vector (getRhsBatchingDimensions g);
               int_vector (getLhsContractingDimensions g);
               int_vector (getRhsContractingDimensions g)])
  | ComparisonDirectionAttr d => Some (FString (stringifyComparisonDirection d))
  | ComparisonTypeAttr t => Some (FString (stringifyComparisonType t))
  | _ => None
  end.

Definition entry_of (pair : NamedAttribute) : list FlexValue :=
  match encoded_value (snd pair) with
  | Some v => [FKey (fst pair); v]
  | None => []
  end.

Definition warnings_of (loc : Location) (pair : NamedAttribute)
  : list Diagnostic :=
  match snd pair with
  | ElementsAttr e =>
      if elements_supported e then [] else [(loc, warn_elements (fst pair))]
  | a => if handled a then [] else [(loc, warn_default (fst pair))]
  end.

(** Every element of a list attribute is a string or a precision tag. *)
Definition list_of_strings (a : Attribute) : bool :=
  match a with
  | ArrayAttr l => forallb string_or_precision l
  | _ => true
  end.

(** An attribute class without a branch in the encoder, and an attribute
    the encoder supports: a class with a branch and, for a list, elements
    that are strings or precision tags. *)
Definition unsupported_kind (a : Attribute) : bool := negb (handled a).

Definition supported_kind (a : Attribute) : bool :=
  handled a && list_of_strings a.

(** The entries of the finished map, in the order of the attributes. *)
Definition pairs_of (options : list NamedAttribute) : list (string * FlexValue) :=
  flat_map (fun pair => match encoded_value (snd pair) with
                        | Some v => [(fst pair, v)]
                        | None => []
                        end) options.

(** The order of an attribute dictionary: by name. *)
Definition key_le {A} (p q : string * A) : Prop :=
  String.leb (fst p) (fst q) = true.

(** ** Notions used to state what the pass keeps *)

(** The operations the pass erases: the StableHLO operations and all that
    is nested in them. *)
Fixpoint erased_ids (o : Operation) : list nat :=
  match o with
  | Op info body =>
      if String.eqb (op_dialect info) "stablehlo"
      then op_id info :: body_ids body
      else erased_ids_body body
  end
with erased_ids_body (b : Body) : list nat :=
  match b with
  | BNil => []
  | BCons _ _ o rest => erased_ids o ++ erased_ids_body rest
  end.

(** The locations of the operations of a tree. *)
Fixpoint op_locs (o : Operation) : list Location :=
  match o with
  | Op info body => op_loc info :: body_locs body
  end
with body_locs (b : Body) : list Location :=
  match b with
  | BNil => []
  | BCons _ _ o rest => op_locs o ++ body_locs rest
  end.


(** A use after renaming: a block argument is itself, a result keeps its
    index. *)
Definition renamed (v v' : Value) : Prop :=
  match v with
  | BlockArgument _ _ => v' = v
  | OpResult _ k => exists owner, v' = OpResult owner k
  end.

(** The attributes that will be encoded for an operation. *)
Definition chosen_options (info : OpInfo) : list NamedAttribute :=
  snd (fst (name_and_options info)).

(** In every StableHLO operation of the tree, the lists among the
    attributes to encode hold strings and precision tags only. *)
Fixpoint lists_hold_strings (o : Operation) : bool :=
  match o with
  | Op info body =>
      (if String.eqb (op_dialect info) "stablehlo"
       then forallb (fun pair => list_of_strings (snd pair)) (chosen_options info)
       else true)
      && lists_hold_strings_body body
  end
with lists_hold_strings_body (b : Body) : bool :=
  match b with
  | BNil => true
  | BCons _ _ o rest => lists_hold_strings o && lists_hold_strings_body rest
  end.

(** ** Properties of the builder *)

Lemma Add_each_app {A} (f : A -> FlexValue) (xs : list A) (fbb : Builder) :
  Add_each f xs fbb = fbb ++ map f xs.
Proof.
  unfold Add_each. revert fbb.
  induction xs as [|x xs IH]; intros fbb; simpl.
  - now rewrite app_nil_r.
  - rewrite IH. unfold Add. now rewrite <- app_assoc.
Qed.

Lemma EndVector_app (pre elems : list FlexValue) (typed fixed : bool) :
  typed = false \/ typed_vector_ok elems = true ->
  EndVector (length pre) typed fixed (pre ++ elems)
  = Some (pre ++ [FVector typed elems]).
Proof.
  intros Hok. unfold EndVector.
  rewrite drop_app_length, take_app_length.
  destruct Hok as [-> | ->]; [reflexivity | now destruct typed].
Qed.

Lemma typed_vector_ok_map {A} (f : A -> FlexValue) (t : FlexType) (xs : list A) :
  (forall x, type_of (f x) = t) ->
  IsTypedVectorElementType t = true ->
  typed_vector_ok (map f xs) = true.
Proof.
  intros Hty Hel. destruct xs as [|x xs]; [reflexivity|].
  simpl. rewrite Hty, Hel, andb_true_r.
  apply forallb_forall. intros w Hw.
  apply in_map_iff in Hw as (y & <- & _).
  rewrite Hty. now destruct t.
Qed.

Lemma AddIntegerArray_app (vec : list Z) (fbb : Builder) :
  AddIntegerArray vec fbb = Some (fbb ++ [FVector false (map FInt vec)]).
Proof.
  unfold AddIntegerArray, StartVector. rewrite Add_each_app.
  apply EndVector_app. now left.
Qed.

(** ** Properties of the encoder *)

Lemma add_array_values_app (l : list Attribute) (fbb : Builder) :
  forallb string_or_precision l = true ->
  add_array_values l fbb = Some (fbb ++ map array_entry l).
Proof.
  revert fbb. induction l as [|a l IH]; intros fbb Hall; simpl.
  - now rewrite app_nil_r.
  - simpl in Hall. apply andb_true_iff in Hall as [Ha Hl].
    destruct a; simpl in Ha; try discriminate; simpl;
      rewrite (IH _ Hl); unfold Add; now rewrite <- app_assoc.
Qed.

Lemma array_rejected_strings (l : list Attribute) :
  forallb string_or_precision l = true -> array_rejected l = false.
Proof.
  destruct l as [|a [|b l]]; simpl; trivial.
  intros H. apply andb_true_iff in H as [Ha _].
  unfold string_or_precision in Ha.
  destruct (isa_StringAttr a), (isa_PrecisionAttr a); simpl in *; congruence.
Qed.

Lemma array_entries_typed (l : list Attribute) :
  typed_vector_ok (map array_entry l) = true.
Proof.
  apply typed_vector_ok_map with (t := FBT_STRING); [|reflexivity].
  now intros [].
Qed.

Lemma elements_values_typed (e : Elements) :
  typed_vector_ok (elements_values e) = true.
Proof.
  unfold elements_values.
  destruct (integer_elements_supported _).
  - now apply typed_vector_ok_map with (t := FBT_INT).
  - destruct (float_elements_supported _); [|reflexivity].
    now apply typed_vector_ok_map with (t := FBT_FLOAT).
Qed.

(** Closing the vector opened by [StartVector(key)] on [fbb]. *)
Lemma EndVector_key (fbb : Builder) (key : string) (elems : list FlexValue)
    (typed fixed : bool) :
  typed = false \/ typed_vector_ok elems = true ->
  EndVector (length (fbb ++ [FKey key])) typed fixed (fbb ++ FKey key :: elems)
  = Some (fbb ++ [FKey key; FVector typed elems]).
Proof.
  intros Hok.
  replace (fbb ++ FKey key :: elems) with ((fbb ++ [FKey key]) ++ elems)
    by now rewrite <- app_assoc.
  rewrite (EndVector_app _ _ _ _ Hok). now rewrite <- app_assoc.
Qed.

(** Runs the straight-line branches: every push becomes an append to the
    stack, and the stack is brought to the form [fbb ++ FKey key :: _]. *)
Ltac run_pushes :=
  cbv beta iota delta
    [StartVector_key StartVector Key Int Double String_ Add fst snd];
  repeat (rewrite AddIntegerArray_app; cbn [mbind option_bind]);
  rewrite ?Add_each_app;
  repeat (rewrite <- app_assoc; cbn [app]).

Lemma BuildOption_spec (fbb : Builder) (loc : Location) (pair : NamedAttribute) :
  list_of_strings (snd pair) = true ->
  BuildOption fbb loc pair
  = Some (if handled (snd pair) then success else failure,
          fbb ++ entry_of pair, warnings_of loc pair).
Proof.
  destruct pair as [key a]. unfold entry_of, warnings_of. cbn [fst snd].
  intros Hwf.
  destruct a as [v|d|e|l|l|s|l|p|c|g|g|g|d|t|l|s|t|content| ];
    unfold BuildOption; cbn [fst snd handled encoded_value].
  all: try (rewrite app_nil_r; reflexivity).
  all: try (run_pushes; reflexivity).
  all: try (run_pushes; rewrite EndVector_key by (now left); reflexivity).
  - (* ElementsAttr *)
    pose proof (elements_values_typed e) as Hty.
    unfold elements_supported, elements_values in *.
    fold (integer_elements_supported (getElementType e)).
    fold (float_elements_supported (getElementType e)).
    destruct (integer_elements_supported (getElementType e));
      [|destruct (float_elements_supported (getElementType e))];
      run_pushes; rewrite EndVector_key by (now right); reflexivity.
  - (* DenseI64ArrayAttr *)
    run_pushes. rewrite EndVector_key; [reflexivity|right].
    now apply typed_vector_ok_map with (t := FBT_INT).
  - (* DenseBoolArrayAttr *)
    run_pushes. rewrite EndVector_key; [reflexivity|right].
    now apply typed_vector_ok_map with (t := FBT_BOOL).
  - (* ArrayAttr *)
    cbn [list_of_strings] in Hwf.
    rewrite (array_rejected_strings _ Hwf).
    cbv beta iota delta [StartVector_key StartVector].
    rewrite (add_array_values_app _ _ Hwf). cbn [mbind option_bind].
    run_pushes.
    rewrite EndVector_key by (right; apply array_entries_typed).
    reflexivity.
Qed.

(** C2 (as amended): a numeric tensor whose element type is an integer of
    width 16, 32, 64, 128 or 1 is emitted as a typed vector of its
    elements as signed integers; one whose element type is a 32-, 64- or
    128-bit float as a typed vector of doubles; for every other element
    type, the 8-bit integers among them, the encoder emits one warning
    and closes the vector empty, so that the key is bound to the empty
    typed vector. *)
Theorem C2_elements_typed_vector (fbb : Builder) (loc : Location) (key : string) :
  let empty_with_warning :=
    Some (success, fbb ++ [FKey key; FVector true []],
          [(loc, warn_elements key)]) in
  (forall w vs, In w [16; 32; 64; 128; 1] ->
     BuildOption fbb loc (key, ElementsAttr (IntegerElements w vs))
     = Some (success, fbb ++ [FKey key; FVector true (map FInt vs)], []))
  /\ (forall k vs, In k [F32; F64; F128] ->
     BuildOption fbb loc (key, ElementsAttr (FloatElements k vs))
     = Some (success, fbb ++ [FKey key; FVector true (map FFloat vs)], []))
  /\ (forall w vs, ~ In w [16; 32; 64; 128; 1] ->
     BuildOption fbb loc (key, ElementsAttr (IntegerElements w vs))
     = empty_with_warning)
  /\ (forall k vs, ~ In k [F32; F64; F128] ->
     BuildOption fbb loc (key, ElementsAttr (FloatElements k vs))
     = empty_with_warning)
  /\ (forall o,
     BuildOption fbb loc (key, ElementsAttr (OtherElements o))
     = empty_with_warning)
  /\ ~ In 8 [16; 32; 64; 128; 1].
Proof.
  assert (Hother : forall e,
             integer_elements_supported (getElementType e) = false ->
             float_elements_supported (getElementType e) = false ->
             BuildOption fbb loc (key, ElementsAttr e)
             = Some (success, fbb ++ [FKey key; FVector true []],
                     [(loc, warn_elements key)])).
  { intros e Hint Hfloat. rewrite BuildOption_spec by reflexivity.
    unfold entry_of, warnings_of. cbn [fst snd encoded_value handled].
    unfold elements_supported, elements_values.
    now rewrite Hint, Hfloat. }
  cbv zeta. split; [|split; [|split; [|split; [|split]]]].
  - intros w vs Hw. rewrite BuildOption_spec by reflexivity.
    assert (Hs : integer_elements_supported (IntegerType w) = true).
    { simpl in Hw. intuition subst; reflexivity. }
    unfold entry_of, warnings_of. cbn [fst snd encoded_value handled].
    unfold elements_supported, elements_values. cbn [getElementType].
    rewrite Hs. reflexivity.
  - intros k vs Hk. rewrite BuildOption_spec by reflexivity.
    assert (Hs : float_elements_supported (FloatType k) = true).
    { simpl in Hk. intuition subst; reflexivity. }
    unfold entry_of, warnings_of. cbn [fst snd encoded_value handled].
    unfold elements_supported, elements_values. cbn [getElementType].
    rewrite Hs. reflexivity.
  - intros w vs Hw. apply Hother; [|reflexivity].
    cbn [getElementType]. unfold integer_elements_supported, isInteger.
    simpl in Hw.
    repeat (apply orb_false_iff; split);
      apply Nat.eqb_neq; intros ->; tauto.
  - intros k vs Hk. apply Hother; [reflexivity|].
    simpl in Hk. destruct k; try reflexivity; tauto.
  - intros o. now apply Hother.
  - simpl. intros [H | [H | [H | [H | [H | []]]]]]; discriminate H.
Qed.


(** C6: a convolution dimension-numbers attribute becomes one untyped
    vector holding, in this order, the input batch and feature
    dimensions, the input spatial dimensions as a nested vector, the
    kernel input and output feature dimensions, the kernel spatial
    dimensions as a nested vector, the output batch and feature
    dimensions and the output spatial dimensions as a nested vector. *)
Theorem C6_conv_field_order (fbb : Builder) (loc : Location) (key : string)
    (c : ConvDimensionNumbers) :
  BuildOption fbb loc (key, ConvDimensionNumbersAttr c)
  = Some (success,
          fbb ++ [FKey key;
                  FVector false
                    [FInt (getInputBatchDimension c);
                     FInt (getInputFeatureDimension c);
                     FVector false (map FInt (getInputSpatialDimensions c));
                     FInt (getKernelInputFeatureDimension c);
                     FInt (getKernelOutputFeatureDimension c);
                     FVector false (map FInt (getKernelSpatialDimensions c));
                     FInt (getOutputBatchDimension c);
                     FInt (getOutputFeatureDimension c);
                     FVector false (map FInt (getOutputSpatialDimensions c))]],
          []).
Proof.
  now rewrite BuildOption_spec.
Qed.

(** The list branch on a list of strings and precision tags: one string
    per element, a precision tag under the name [stringifyPrecision]
    gives it. *)
Lemma ArrayAttr_strings_encoding (fbb : Builder) (loc : Location)
    (key : string) (l : list Attribute) :
  forallb string_or_precision l = true ->
  BuildOption fbb loc (key, ArrayAttr l)
  = Some (success, fbb ++ [FKey key; FVector true (map array_entry l)], [])
  /\ length (map array_entry l) = length l
  /\ (forall i p, l !! i = Some (PrecisionAttr p) ->
        map array_entry l !! i = Some (FString (stringifyPrecision p)))
  /\ (forall i s, l !! i = Some (StringAttr s) ->
        map array_entry l !! i = Some (FString s)).
Proof.
  intros Hall. split; [now rewrite BuildOption_spec|].
  split; [apply length_map|].
  split; intros i x Hi; rewrite list_lookup_fmap, Hi; reflexivity.
Qed.

(** The list branch on a list that its test rejects: the key stays on the
    stack and no vector follows it. *)
Lemma ArrayAttr_rejected (fbb : Builder) (loc : Location) (key : string)
    (l : list Attribute) :
  array_rejected l = true ->
  BuildOption fbb loc (key, ArrayAttr l)
  = Some (success, fbb ++ [FKey key], [(loc, warn_array key)]).
Proof.
  intros Hrej. unfold BuildOption. cbn [fst snd].
  cbv beta iota delta [StartVector_key StartVector].
  now rewrite Hrej.
Qed.

(** ** Properties of the options map *)

Lemma BuildOptions_spec (options : list NamedAttribute) (loc : Location)
    (fbb : Builder) :
  Forall (fun pair => list_of_strings (snd pair) = true) options ->
  BuildOptions options loc fbb
  = Some (fbb ++ flat_map entry_of options, flat_map (warnings_of loc) options).
Proof.
  intros Hall. revert fbb.
  induction Hall as [|pair options Hp Hall IH]; intros fbb.
  - simpl. now rewrite app_nil_r.
  - cbn [BuildOptions flat_map].
    rewrite (BuildOption_spec _ _ _ Hp). cbn [mbind option_bind].
    rewrite IH. cbn [mbind option_bind]. now rewrite <- app_assoc.
Qed.

Lemma map_pairs_entries (options : list NamedAttribute) :
  map_pairs (flat_map entry_of options) = Some (pairs_of options).
Proof.
  induction options as [|[key a] options IH]; [reflexivity|].
  unfold entry_of, pairs_of in *. cbn [flat_map fst snd].
  destruct (encoded_value a); cbn [app map_pairs]; [|exact IH].
  now rewrite IH.
Qed.

Lemma encoded_value_handled (a : Attribute) :
  handled a = true <-> exists v, encoded_value a = Some v.
Proof.
  destruct a; simpl; split; intros H; eauto;
    try discriminate; now destruct H.
Qed.

Lemma pairs_of_keys (options : list NamedAttribute) :
  map fst (pairs_of options)
  = map fst (List.filter (fun pair => handled (snd pair)) options).
Proof.
  induction options as [|[key a] options IH]; [reflexivity|].
  unfold pairs_of in *. cbn [flat_map List.filter fst snd].
  destruct a; cbn [encoded_value handled app map fst]; now rewrite ?IH.
Qed.

Lemma insert_pair_least (p : string * FlexValue) (ps : list (string * FlexValue)) :
  Forall (key_le p) ps -> insert_pair p ps = p :: ps.
Proof.
  intros Hle. destruct Hle as [|q ps Hq _]; [reflexivity|].
  simpl. unfold key_le in Hq. now rewrite Hq.
Qed.

Lemma sort_pairs_sorted (ps : list (string * FlexValue)) :
  StronglySorted key_le ps -> sort_pairs ps = ps.
Proof.
  induction 1 as [|p ps _ IH Hle]; [reflexivity|].
  simpl. rewrite IH. now apply insert_pair_least.
Qed.

Lemma pairs_of_sorted (options : list NamedAttribute) :
  StronglySorted (@key_le Attribute) options ->
  StronglySorted (@key_le FlexValue) (pairs_of options).
Proof.
  assert (Hle : forall (k : string) (l : list NamedAttribute),
             Forall (fun q => String.leb k (fst q) = true) l ->
             Forall (fun q => String.leb k (fst q) = true) (pairs_of l)).
  { intros k l Hl. induction Hl as [|[k' a] l Hk _ IH]; [constructor|].
    unfold pairs_of in *. cbn [flat_map fst snd].
    destruct (encoded_value a); cbn [app]; [constructor|]; trivial. }
  induction 1 as [|[k a] l _ IH Hl]; [constructor|].
  unfold pairs_of in *. cbn [flat_map fst snd].
  destruct (encoded_value a) as [v|]; cbn [app]; [|exact IH].
  constructor; [exact IH|]. apply (Hle k l Hl).
Qed.

(** The map built from a dictionary whose lists hold strings. *)
Lemma options_map_spec (options : list NamedAttribute) (loc : Location) :
  Forall (fun pair => list_of_strings (snd pair) = true) options ->
  options_map options loc
  = Some (FMap (sort_pairs (pairs_of options)),
          flat_map (warnings_of loc) options).
Proof.
  intros Hall. unfold options_map, StartMap, new_Builder.
  cbn [length]. rewrite (BuildOptions_spec _ _ _ Hall).
  cbn [mbind option_bind app]. unfold EndMap.
  rewrite drop_0, map_pairs_entries. reflexivity.
Qed.

(** X17: when every attribute of a dictionary kept in the order of its
    names is of an unsupported kind or of a supported one, the encoded
    map holds exactly the keys of the supported attributes, in their
    order in the dictionary, and every unsupported key gives exactly one
    warning. *)
Theorem X17_sorted_dictionary_keys_in_order (options : list NamedAttribute)
    (loc : Location) :
  Forall (fun pair => unsupported_kind (snd pair) = true
                      \/ supported_kind (snd pair) = true) options ->
  StronglySorted (@key_le Attribute) options ->
  exists entries,
    options_map options loc
    = Some (FMap entries, flat_map (warnings_of loc) options)
    /\ map fst entries
       = map fst (List.filter (fun pair => supported_kind (snd pair)) options)
    /\ (forall pair, unsupported_kind (snd pair) = true ->
          warnings_of loc pair = [(loc, warn_default (fst pair))])
    /\ (forall pair, supported_kind (snd pair) = true ->
          warnings_of loc pair = []
          \/ exists e, snd pair = ElementsAttr e
               /\ warnings_of loc pair = [(loc, warn_elements (fst pair))]).
Proof.
  intros Hkinds Hsorted.
  assert (Hall : Forall (fun pair => list_of_strings (snd pair) = true) options).
  { eapply Forall_impl; [exact Hkinds|]. intros [k a] [Hu | Hs]; simpl in *.
    - unfold unsupported_kind in Hu. destruct a; try discriminate; reflexivity.
    - unfold supported_kind in Hs. now apply andb_true_iff in Hs. }
  exists (pairs_of options). split; [|split; [|split]].
  - rewrite (options_map_spec _ _ Hall).
    now rewrite (sort_pairs_sorted _ (pairs_of_sorted _ Hsorted)).
  - rewrite pairs_of_keys. f_equal.
    clear Hkinds Hsorted. induction Hall as [|[k a] l Ha Hall IH]; [reflexivity|].
    cbn [List.filter snd] in *. unfold supported_kind at 1.
    rewrite Ha, andb_true_r, IH. reflexivity.
  - intros [k a] Hu. unfold unsupported_kind in Hu. simpl in Hu.
    unfold warnings_of. cbn [fst snd].
    destruct a; try discriminate; reflexivity.
  - intros [k a] Hs. unfold supported_kind in Hs.
    apply andb_true_iff in Hs as [Hh _]. simpl in Hh.
    unfold warnings_of. cbn [fst snd].
    destruct a; try discriminate; auto.
    destruct (elements_supported e); eauto.
Qed.

(** ** Properties of the rewrite *)

Lemma lookup_erase_in (ids : list nat) (ops : gmap nat (list Value)) (u : nat) :
  u ∈ ids -> foldr delete ops ids !! u = None.
Proof.
  induction ids as [|i ids IH]; intros Hin.
  - now apply elem_of_nil in Hin.
  - simpl. destruct (decide (i = u)) as [->|Hne].
    + apply lookup_delete_eq.
    + rewrite lookup_delete_ne by exact Hne.
      apply IH. apply elem_of_cons in Hin as [Heq|Hin]; [congruence|exact Hin].
Qed.

Lemma lookup_erase_notin (ids : list nat) (ops : gmap nat (list Value)) (u : nat) :
  u ∉ ids -> foldr delete ops ids !! u = ops !! u.
Proof.
  induction ids as [|i ids IH]; intros Hnin; [reflexivity|].
  simpl. apply not_elem_of_cons in Hnin as [Hne Hnin].
  rewrite lookup_delete_ne by congruence. now apply IH.
Qed.

Lemma dom_erase (ids : list nat) (ops : gmap nat (list Value)) :
  dom (foldr delete ops ids) = dom ops ∖ list_to_set ids.
Proof.
  induction ids as [|i ids IH]; simpl.
  - apply symmetry, difference_empty_L.
  - rewrite dom_delete_L, IH.
    apply set_eq. intros x.
    rewrite !elem_of_difference, elem_of_union, elem_of_singleton.
    tauto.
Qed.

Lemma rewire_result (old new k : nat) :
  rewire old new (OpResult old k) = OpResult new k.
Proof. simpl. now rewrite Nat.eqb_refl. Qed.

Lemma rewire_other (old new : nat) (v : Value) :
  (forall k, v <> OpResult old k) -> rewire old new v = v.
Proof.
  intros Hv. destruct v as [owner k|]; [|reflexivity]. simpl.
  destruct (Nat.eqb_spec owner old) as [->|]; [now destruct (Hv k)|reflexivity].
Qed.

Lemma rewire_no_old (old new : nat) (v : Value) (k : nat) :
  new <> old -> rewire old new v <> OpResult old k.
Proof.
  intros Hne. destruct v as [owner j|]; simpl; [|discriminate].
  destruct (Nat.eqb_spec owner old); congruence.
Qed.

Lemma map_rewire_id (old new : nat) (operands : list Value) :
  (forall k, OpResult old k ∉ operands) ->
  map (rewire old new) operands = operands.
Proof.
  induction operands as [|v operands IH]; intros Hno; [reflexivity|].
  simpl. rewrite rewire_other, IH; trivial.
  - intros k Hin. apply (Hno k). apply elem_of_cons. now right.
  - intros k ->. apply (Hno k). apply elem_of_cons. now left.
Qed.

(** What "Build custom op" does to the graph, once the options are
    encoded. *)
Lemma build_custom_op_spec (info : OpInfo) (body : Body) (st : PassState)
    (custom_op_name : string) (options : list NamedAttribute)
    (d1 d2 : list Diagnostic) (buffer : string) (operands : list Value) :
  custom_option_buffer options (op_loc info) = Some (buffer, d2) ->
  st_operands st !! op_id info = Some operands ->
  Forall (fun i => is_Some (st_operands st !! i)) (body_ids body) ->
  let old := op_id info in
  let new_id := fresh (dom (st_operands st)) in
  exists st',
    build_custom_op (Op info body) st custom_op_name options d1
    = Some (create_CustomOp new_id (op_loc info) (op_result_types info)
              custom_op_name (CustomOption buffer), st')
    /\ st_operands st !! new_id = None
    /\ st_operands st' !! new_id = Some (map (rewire old new_id) operands)
    /\ (forall u ops, u ∉ op_ids (Op info body) ->
          st_operands st !! u = Some ops ->
          st_operands st' !! u = Some (map (rewire old new_id) ops))
    /\ (forall u ops k, st_operands st' !! u = Some ops ->
          OpResult old k ∉ ops)
    /\ (forall u, u ∈ op_ids (Op info body) -> st_operands st' !! u = None)
    /\ dom (st_operands st')
       = ({[new_id]} ∪ dom (st_operands st)) ∖ list_to_set (op_ids (Op info body))
    /\ st_diags st' = st_diags st ++ d1 ++ d2.
Proof.
  intros Hbuf Hops Hbody old new_id. subst old.
  assert (Hfresh : st_operands st !! new_id = None).
  { apply not_elem_of_dom. apply is_fresh. }
  assert (Hnew : new_id ∉ op_ids (Op info body)).
  { cbn [op_ids]. intros Hin.
    apply elem_of_cons in Hin as [Heq|Hin].
    - rewrite Heq, Hops in Hfresh. discriminate.
    - rewrite Forall_forall in Hbody. destruct (Hbody _ Hin) as [x Hx].
      rewrite Hx in Hfresh. discriminate. }
  assert (Hne : new_id <> op_id info).
  { intros Heq. rewrite Heq, Hops in Hfresh. discriminate. }
  eexists. unfold build_custom_op. cbn [info_of]. rewrite Hbuf.
  cbn [mbind option_bind]. split; [reflexivity|]. cbn [st_operands st_diags].
  fold new_id. unfold getOperands. rewrite Hops. cbn [default].
  unfold erase, replaceAllUsesWith.
  split; [exact Hfresh|]. split; [|split; [|split; [|split; [|split]]]].
  - rewrite lookup_erase_notin by exact Hnew.
    now rewrite lookup_fmap, lookup_insert_eq.
  - intros u ops Hu Hlook. rewrite lookup_erase_notin by exact Hu.
    rewrite lookup_fmap, lookup_insert_ne, Hlook; [reflexivity|].
    intros <-. rewrite Hlook in Hfresh. discriminate.
  - intros u ops k Hlook Hin.
    destruct (decide (u ∈ op_ids (Op info body))) as [Hu|Hu].
    + rewrite lookup_erase_in in Hlook by exact Hu. discriminate.
    + rewrite lookup_erase_notin in Hlook by exact Hu.
      apply lookup_fmap_Some in Hlook as (ops0 & <- & _).
      apply list_elem_of_In, in_map_iff in Hin.
      destruct Hin as (v & Hv & _). now apply rewire_no_old in Hv.
  - intros u Hu. now apply lookup_erase_in.
  - rewrite dom_erase, dom_fmap_L, dom_insert_L. reflexivity.
  - reflexivity.
Qed.

Lemma legalize_stablehlo (info : OpInfo) (body : Body) (st : PassState) :
  op_dialect info = "stablehlo" ->
  legalize (Op info body) st
  = let '(custom_op_name, options, d1) := name_and_options info in
    build_custom_op (Op info body) st custom_op_name options d1.
Proof.
  intros Hd. unfold legalize. cbn [info_of]. now rewrite Hd.
Qed.

(** The callback on a StableHLO operation, written out: nothing when the
    options cannot be encoded, and otherwise the replacement and the new
    state. *)
Lemma legalize_replaces (info : OpInfo) (body : Body) (st : PassState)
    (custom_op_name : string) (options : list NamedAttribute)
    (d1 : list Diagnostic) :
  op_dialect info = "stablehlo" ->
  name_and_options info = (custom_op_name, options, d1) ->
  legalize (Op info body) st
  = match options_map options (op_loc info) with
    | None => None
    | Some (root, d2) =>
        let new_id := fresh (dom (st_operands st)) in
        Some (Op {| op_id := new_id;
                    op_dialect := "tfl";
                    op_name := "tfl.custom";
                    op_attrs :=
                      [("custom_code", StringAttr custom_op_name);
                       ("custom_option", ConstBytesAttr (GetBuffer root))];
                    op_result_types := op_result_types info;
                    op_loc := op_loc info;
                    op_composite := None |} BNil,
              {| st_operands :=
                   erase (Op info body)
                     (replaceAllUsesWith (op_id info) new_id
                        (<[new_id := getOperands (op_id info) st]>
                           (st_operands st)));
                 st_diags := st_diags st ++ d1 ++ d2 |})
    end.
Proof.
  intros Hd Hname. rewrite (legalize_stablehlo _ _ _ Hd), Hname.
  unfold build_custom_op, custom_option_buffer. cbn [info_of].
  destruct (options_map options (op_loc info)) as [[root d2]|]; reflexivity.
Qed.

Lemma Forall_list_of_strings (options : list NamedAttribute) :
  forallb (fun pair => list_of_strings (snd pair)) options = true ->
  Forall (fun pair => list_of_strings (snd pair) = true) options.
Proof.
  intros Hall. apply Forall_forall. intros x Hx.
  apply list_elem_of_In in Hx.
  exact (proj1 (forallb_forall _ _) Hall x Hx).
Qed.

(** X16: a StableHLO operation whose lists, among the attributes to
    encode, hold strings and precision tags only is replaced by exactly
    one operation at a new address: a [tfl.custom] operation without
    regions that has the location and the result types of the original,
    the chosen name as its [custom_code], the bytes of the map of the
    chosen attributes as its [custom_option], and the operand list of
    the original in its order.  Every use of result [k] of the original,
    in any other operation, becomes a use of result [k] of the
    replacement and no use of the original is left; the original, with
    what is nested in it, is erased. *)
Theorem X16_replacement_node (info : OpInfo) (body : Body) (st : PassState)
    (operands : list Value) :
  op_dialect info = "stablehlo" ->
  forallb (fun pair => list_of_strings (snd pair)) (chosen_options info) = true ->
  st_operands st !! op_id info = Some operands ->
  (forall k, OpResult (op_id info) k ∉ operands) ->
  Forall (fun i => is_Some (st_operands st !! i)) (body_ids body) ->
  let new_id := fresh (dom (st_operands st)) in
  exists st',
    legalize (Op info body) st
    = Some (Op {| op_id := new_id;
                  op_dialect := "tfl";
                  op_name := "tfl.custom";
                  op_attrs :=
                    [("custom_code",
                      StringAttr (fst (fst (name_and_options info))));
                     ("custom_option",
                      ConstBytesAttr
                        (GetBuffer
                           (FMap (sort_pairs
                                    (pairs_of (chosen_options info))))))];
                  op_result_types := op_result_types info;
                  op_loc := op_loc info;
                  op_composite := None |} BNil, st')
    /\ st_operands st !! new_id = None
    /\ st_operands st' !! new_id = Some operands
    /\ (forall u ops, u ∉ op_ids (Op info body) ->
          st_operands st !! u = Some ops ->
          st_operands st' !! u = Some (map (rewire (op_id info) new_id) ops))
    /\ (forall k, rewire (op_id info) new_id (OpResult (op_id info) k)
                  = OpResult new_id k)
    /\ (forall v, (forall k, v <> OpResult (op_id info) k) ->
          rewire (op_id info) new_id v = v)
    /\ (forall u ops k, st_operands st' !! u = Some ops ->
          OpResult (op_id info) k ∉ ops)
    /\ (forall u, u ∈ op_ids (Op info body) -> st_operands st' !! u = None)
    /\ dom (st_operands st')
       = ({[new_id]} ∪ dom (st_operands st))
           ∖ list_to_set (op_ids (Op info body)).
Proof.
  intros Hd Hall Hops Hself Hbody new_id. subst new_id.
  unfold chosen_options in *.
  destruct (name_and_options info) as [[name options] d1] eqn:Hname.
  cbn [fst snd] in *.
  pose proof (options_map_spec options (op_loc info)
                (Forall_list_of_strings _ Hall)) as Hmap.
  assert (Hbuf : custom_option_buffer options (op_loc info)
                 = Some (GetBuffer (FMap (sort_pairs (pairs_of options))),
                         flat_map (warnings_of (op_loc info)) options)).
  { unfold custom_option_buffer. now rewrite Hmap. }
  destruct (build_custom_op_spec info body st name options d1 _ _ operands
              Hbuf Hops Hbody)
    as (st' & Hrun & Hfresh & Hnew & Huses & Hnone & Herased & Hdom & _).
  exists st'.
  rewrite (legalize_stablehlo _ _ _ Hd), Hname.
  split; [exact Hrun|]. split; [exact Hfresh|].
  split; [now rewrite Hnew, map_rewire_id|].
  split; [exact Huses|]. split; [intros k; apply rewire_result|].
  split; [intros v; apply rewire_other|].
  split; [exact Hnone|]. split; [exact Herased|exact Hdom].
Qed.




Lemma legalize_other_dialect (info : OpInfo) (body : Body) (st : PassState) :
  String.eqb (op_dialect info) "stablehlo" = false ->
  legalize (Op info body) st = Some (Op info body, st).
Proof.
  intros Hd. unfold legalize. cbn [info_of]. now rewrite Hd.
Qed.

(** C9: on a function that holds no StableHLO operation the pass changes
    nothing: the function and the operand store come back as they were
    and no diagnostic is added. *)
Theorem C9_no_stablehlo_is_noop (fn : Operation) (st : PassState) :
  no_dialect_op "stablehlo" fn = true ->
  runOnOperation fn st = Some (fn, st).
Proof.
  unfold runOnOperation. revert st.
  induction fn using Operation_mut with
    (P0 := fun b => forall st,
             no_dialect_body "stablehlo" b = true ->
             walk_body b st = Some (b, st)).
  - intros st Hno. cbn [no_dialect_op] in Hno.
    apply andb_true_iff in Hno as [Hd Hb].
    apply negb_true_iff in Hd.
    cbn [walk]. rewrite (IHfn st Hb). cbn [mbind option_bind].
    now apply legalize_other_dialect.
  - reflexivity.
  - intros st Hno. cbn [no_dialect_body] in Hno.
    apply andb_true_iff in Hno as [Ho Hb].
    cbn [walk_body]. rewrite (IHfn st Ho). cbn [mbind option_bind].
    rewrite (IHfn0 st Hb). reflexivity.
Qed.

(** C10: a StableHLO operation that is not a composite and has no
    attribute is replaced all the same.  The [custom_option] of its
    replacement holds the bytes of the map without entries: the seven
    bytes 0, 0, 1, 0, 0, 36, 1, not the empty string, which read back as
    a buffer whose root is a map with no entry. *)
Theorem C10_empty_attribute_set (info : OpInfo) (body : Body) (st : PassState) :
  op_dialect info = "stablehlo" ->
  op_composite info = None ->
  op_attrs info = [] ->
  let new_id := fresh (dom (st_operands st)) in
  let payload :=
    string_of_list_ascii (map ascii_of_nat [0; 0; 1; 0; 0; 36; 1]) in
  legalize (Op info body) st
  = Some (Op {| op_id := new_id;
                op_dialect := "tfl";
                op_name := "tfl.custom";
                op_attrs :=
                  [("custom_code", StringAttr (op_name info));
                   ("custom_option", ConstBytesAttr payload)];
                op_result_types := op_result_types info;
                op_loc := op_loc info;
                op_composite := None |} BNil,
          {| st_operands :=
               erase (Op info body)
                 (replaceAllUsesWith (op_id info) new_id
                    (<[new_id := getOperands (op_id info) st]>
                       (st_operands st)));
             st_diags := st_diags st |})
  /\ options_map [] (op_loc info) = Some (FMap [], [])
  /\ custom_option_buffer [] (op_loc info) = Some (payload, [])
  /\ payload <> EmptyString
  /\ String.length payload = 7
  /\ root_map_size payload = Some 0.
Proof.
  intros Hd Hc Hattrs. cbv zeta.
  assert (Hname : name_and_options info = (op_name info, [], [])).
  { unfold name_and_options. now rewrite Hc, Hattrs. }
  split; [|repeat split; discriminate].
  rewrite (legalize_replaces _ _ _ _ _ _ Hd Hname).
  cbn [options_map StartMap new_Builder BuildOptions mbind option_bind
         EndMap map_pairs drop take length sort_pairs app Finish].
  cbv zeta. rewrite !app_nil_r. reflexivity.
Qed.

(** ** Further properties of the encoder *)

(** X1: a gather dimension-numbers attribute becomes one untyped vector
    holding the offset dimensions, the collapsed slice dimensions and the
    start index map, each as a nested vector, then the index vector
    dimension. *)
Theorem X1_gather_field_order (fbb : Builder) (loc : Location) (key : string)
    (g : GatherDimensionNumbers) :
  BuildOption fbb loc (key, GatherDimensionNumbersAttr g)
  = Some (success,
          fbb ++ [FKey key;
                  FVector false
                    [FVector false (map FInt (getOffsetDims g));
                     FVector false (map FInt (getCollapsedSliceDims g));
                     FVector false (map FInt (getStartIndexMap g));
                     FInt (gather_getIndexVectorDim g)]],
          []).
Proof.
  now rewrite BuildOption_spec.
Qed.

(** X2: a scatter dimension-numbers attribute becomes one untyped vector
    holding the update window dimensions, the inserted window dimensions
    and the map from scatter dimensions to operand dimensions, each as a
    nested vector, then the index vector dimension. *)
Theorem X2_scatter_field_order (fbb : Builder) (loc : Location) (key : string)
    (g : ScatterDimensionNumbers) :
  BuildOption fbb loc (key, ScatterDimensionNumbersAttr g)
  = Some (success,
          fbb ++ [FKey key;
                  FVector false
                    [FVector false (map FInt (getUpdateWindowDims g));
                     FVector false (map FInt (getInsertedWindowDims g));
                     FVector false (map FInt (getScatterDimsToOperandDims g));
                     FInt (scatter_getIndexVectorDim g)]],
          []).
Proof.
  now rewrite BuildOption_spec.
Qed.

(** X3: a dot dimension-numbers attribute becomes one untyped vector of
    four nested vectors: the batching dimensions of the left and of the
    right operand, then their contracting dimensions. *)
Theorem X3_dot_field_order (fbb : Builder) (loc : Location) (key : string)
    (g : DotDimensionNumbers) :
  BuildOption fbb loc (key, DotDimensionNumbersAttr g)
  = Some (success,
          fbb ++ [FKey key;
                  FVector false
                    [FVector false (map FInt (getLhsBatchingDimensions g));
                     FVector false (map FInt (getRhsBatchingDimensions g));
                     FVector false (map FInt (getLhsContractingDimensions g));
                     FVector false (map FInt (getRhsContractingDimensions g))]],
          []).
Proof.
  now rewrite BuildOption_spec.
Qed.

Lemma map_FInt_inj (l1 l2 : list Z) : map FInt l1 = map FInt l2 -> l1 = l2.
Proof.
  revert l2. induction l1 as [|x l1 IH]; intros [|y l2] H;
    try discriminate; [reflexivity|].
  simpl in H. injection H as -> H. f_equal. now apply IH.
Qed.

Lemma BuildOption_same_entry (fbb : Builder) (loc : Location) (key : string)
    (a1 a2 : Attribute) :
  list_of_strings a1 = true -> list_of_strings a2 = true ->
  BuildOption fbb loc (key, a1) = BuildOption fbb loc (key, a2) ->
  entry_of (key, a1) = entry_of (key, a2).
Proof.
  intros H1 H2 Heq.
  rewrite (BuildOption_spec _ _ (key, a1) H1) in Heq.
  rewrite (BuildOption_spec _ _ (key, a2) H2) in Heq.
  injection Heq as _ Heq _. now apply app_inv_head in Heq.
Qed.

(** X4: the encoding of the four dimension-number records loses nothing:
    two records of one kind that give the same entry are equal. *)
Theorem X4_dimension_numbers_injective (fbb : Builder) (loc : Location)
    (key : string) :
  (forall c1 c2,
     BuildOption fbb loc (key, ConvDimensionNumbersAttr c1)
     = BuildOption fbb loc (key, ConvDimensionNumbersAttr c2) -> c1 = c2)
  /\ (forall g1 g2,
     BuildOption fbb loc (key, GatherDimensionNumbersAttr g1)
     = BuildOption fbb loc (key, GatherDimensionNumbersAttr g2) -> g1 = g2)
  /\ (forall g1 g2,
     BuildOption fbb loc (key, ScatterDimensionNumbersAttr g1)
     = BuildOption fbb loc (key, ScatterDimensionNumbersAttr g2) -> g1 = g2)
  /\ (forall g1 g2,
     BuildOption fbb loc (key, DotDimensionNumbersAttr g1)
     = BuildOption fbb loc (key, DotDimensionNumbersAttr g2) -> g1 = g2).
Proof.
  repeat split; intros x y Heq;
    apply BuildOption_same_entry in Heq; try reflexivity;
    unfold entry_of in Heq; cbn [fst snd encoded_value conv_fields] in Heq;
    unfold int_vector in Heq; destruct x, y; simpl in Heq;
    injection Heq; intros;
    repeat match goal with
           | H : map FInt _ = map FInt _ |- _ => apply map_FInt_inj in H
           end;
    subst; reflexivity.
Qed.

(** X5: the entry of an integer array does not record where it came from:
    a tensor of integers of any of the accepted widths and a flat 64-bit
    integer array with the same elements give the same entry, and so do a
    gather and a scatter attribute with the same fields. *)
Theorem X5_entries_not_tagged (fbb : Builder) (loc : Location) (key : string) :
  (forall w vs, In w [16; 32; 64; 128; 1] ->
     BuildOption fbb loc (key, ElementsAttr (IntegerElements w vs))
     = BuildOption fbb loc (key, DenseI64ArrayAttr vs))
  /\ (forall a b c d,
     BuildOption fbb loc
       (key, GatherDimensionNumbersAttr
               {| getOffsetDims := a; getCollapsedSliceDims := b;
                  getStartIndexMap := c; gather_getIndexVectorDim := d |})
     = BuildOption fbb loc
         (key, ScatterDimensionNumbersAttr
                 {| getUpdateWindowDims := a; getInsertedWindowDims := b;
                    getScatterDimsToOperandDims := c;
                    scatter_getIndexVectorDim := d |})).
Proof.
  split.
  - intros w vs Hw. rewrite !BuildOption_spec by reflexivity.
    assert (Hs : integer_elements_supported (IntegerType w) = true).
    { simpl in Hw. intuition subst; reflexivity. }
    unfold entry_of, warnings_of. cbn [fst snd encoded_value handled].
    unfold elements_supported, elements_values. cbn [getElementType].
    rewrite Hs. reflexivity.
  - intros a b c d. now rewrite !BuildOption_spec.
Qed.

Lemma add_array_values_none (l : list Attribute) (fbb : Builder) :
  forallb string_or_precision l = false -> add_array_values l fbb = None.
Proof.
  revert fbb. induction l as [|a l IH]; intros fbb Hall; [discriminate|].
  simpl in Hall. apply andb_false_iff in Hall as [Ha | Hl].
  - destruct a; simpl in Ha; try discriminate; reflexivity.
  - destruct a; simpl; try reflexivity; now apply IH.
Qed.

Lemma ArrayAttr_other_element_aborts (fbb : Builder) (loc : Location) (key : string)
    (l : list Attribute) :
  array_rejected l = false ->
  forallb string_or_precision l = false ->
  BuildOption fbb loc (key, ArrayAttr l) = None.
Proof.
  intros Hrej Hall. unfold BuildOption. cbn [fst snd].
  cbv beta iota delta [StartVector_key StartVector].
  rewrite Hrej, (add_array_values_none _ _ Hall). reflexivity.
Qed.

(** X6: the encode call fails to return in exactly one situation: the
    attribute is a list that passes the size-and-first-element test and
    holds an element that is neither a string nor a precision tag. *)
Theorem X6_abort_condition (fbb : Builder) (loc : Location)
    (pair : NamedAttribute) :
  BuildOption fbb loc pair = None
  <-> exists l, snd pair = ArrayAttr l
        /\ array_rejected l = false
        /\ forallb string_or_precision l = false.
Proof.
  destruct pair as [key a]. cbn [snd]. split.
  - intros Hnone.
    destruct (list_of_strings a) eqn:Hwf.
    { rewrite (BuildOption_spec _ _ (key, a) Hwf) in Hnone. discriminate. }
    destruct a; try discriminate. cbn [list_of_strings] in Hwf.
    exists l. split; [reflexivity|]. split; [|exact Hwf].
    destruct (array_rejected l) eqn:Hrej; [|reflexivity].
    rewrite (ArrayAttr_rejected _ _ _ _ Hrej) in Hnone. discriminate.
  - intros (l & -> & Hrej & Hall). unfold BuildOption. cbn [fst snd].
    cbv beta iota delta [StartVector_key StartVector].
    rewrite Hrej, (add_array_values_none _ _ Hall). reflexivity.
Qed.

(** What a call that returns has done. *)
Lemma BuildOption_returns_spec (fbb : Builder) (loc : Location)
    (pair : NamedAttribute) (r : LogicalResult) (fbb' : Builder)
    (d : list Diagnostic) :
  BuildOption fbb loc pair = Some (r, fbb', d) ->
  exists pushed,
    fbb' = fbb ++ pushed
    /\ (pushed = [] \/ pushed = [FKey (fst pair)]
        \/ exists v, pushed = [FKey (fst pair); v])
    /\ BuildOption [] loc pair = Some (r, pushed, d)
    /\ length d <= 1
    /\ (forall w, In w d -> fst w = loc)
    /\ (r = failure <-> handled (snd pair) = false).
Proof.
  intros Hrun. destruct pair as [key a]. cbn [fst snd].
  destruct (list_of_strings a) eqn:Hwf.
  - rewrite (BuildOption_spec _ _ (key, a) Hwf) in Hrun.
    injection Hrun as <- <- <-.
    exists (entry_of (key, a)). split; [reflexivity|].
    rewrite (BuildOption_spec _ _ (key, a) Hwf).
    unfold entry_of, warnings_of. cbn [fst snd app].
    split; [destruct (encoded_value a); eauto|].
    split; [reflexivity|].
    split; [|split].
    + destruct a; try destruct (elements_supported e); simpl; lia.
    + intros w Hw.
      destruct a; try destruct (elements_supported e); simpl in Hw;
        intuition subst; reflexivity.
    + destruct (handled a); split; congruence.
  - destruct a; try discriminate. cbn [list_of_strings] in Hwf.
    destruct (array_rejected l) eqn:Hrej.
    + rewrite (ArrayAttr_rejected _ _ _ _ Hrej) in Hrun.
      injection Hrun as <- <- <-.
      exists [FKey key]. rewrite (ArrayAttr_rejected _ _ _ _ Hrej).
      cbn [app handled]. repeat split; auto; try discriminate.
      intros w [<- | []]. reflexivity.
    + assert (Hnone : BuildOption fbb loc (key, ArrayAttr l) = None).
      { apply ArrayAttr_other_element_aborts; assumption. }
      rewrite Hnone in Hrun. discriminate.
Qed.

(** X7: a call that returns leaves what is on the stack where it is and
    pushes nothing, the key alone, or the key and one value, and what it
    pushes and reports does not depend on the stack it finds.  It emits at
    most one warning, at the location it was given, and it reports failure
    exactly for the attribute classes without a branch: a rejected list
    is reported as success. *)
Theorem X7_stack_discipline (fbb : Builder) (loc : Location)
    (pair : NamedAttribute) (r : LogicalResult) (fbb' : Builder)
    (d : list Diagnostic) :
  BuildOption fbb loc pair = Some (r, fbb', d) ->
  exists pushed,
    fbb' = fbb ++ pushed
    /\ (pushed = [] \/ pushed = [FKey (fst pair)]
        \/ exists v, pushed = [FKey (fst pair); v])
    /\ BuildOption [] loc pair = Some (r, pushed, d)
    /\ length d <= 1
    /\ (forall w, In w d -> fst w = loc)
    /\ (r = failure <-> handled (snd pair) = false).
Proof.
  apply BuildOption_returns_spec.
Qed.

(** X15: a flat array of 64-bit integers or of booleans becomes a typed
    vector of its elements, in order and as many as the array has; this
    holds for every length, the empty array included, and no warning is
    emitted. *)
Theorem X15_flat_arrays (fbb : Builder) (loc : Location) (key : string) :
  (forall l : list Z,
     exists elems,
       BuildOption fbb loc (key, DenseI64ArrayAttr l)
       = Some (success, fbb ++ [FKey key; FVector true elems], [])
       /\ length elems = length l
       /\ forall i x, l !! i = Some x -> elems !! i = Some (FInt x))
  /\ (forall l : list bool,
     exists elems,
       BuildOption fbb loc (key, DenseBoolArrayAttr l)
       = Some (success, fbb ++ [FKey key; FVector true elems], [])
       /\ length elems = length l
       /\ forall i x, l !! i = Some x -> elems !! i = Some (FBool x)).
Proof.
  split; intros l.
  - exists (map FInt l). split; [now rewrite BuildOption_spec|].
    split; [apply length_map|].
    intros i x Hi. now rewrite list_lookup_fmap, Hi.
  - exists (map FBool l). split; [now rewrite BuildOption_spec|].
    split; [apply length_map|].
    intros i x Hi. now rewrite list_lookup_fmap, Hi.
Qed.

Lemma In_insert_pair (p q : string * FlexValue) (ps : list (string * FlexValue)) :
  In q (insert_pair p ps) <-> q = p \/ In q ps.
Proof using Type.
  induction ps as [|x ps IH]; simpl.
  - split; [intros [<- | []]; now left|intros [-> | []]; now left].
  - destruct (String.leb (fst p) (fst x)); simpl.
    + split; [intros [<- | H]; auto|intros [-> | H]; auto].
    + destruct IH as [IH1 IH2]. split.
      * intros [H | H]; [now right; left|].
        destruct (IH1 H) as [H' | H']; [now left|now right; right].
      * intros [H | [H | H]]; [right; apply IH2; now left|now left|].
        right. apply IH2. now right.
Qed.

Lemma In_sort_pairs (q : string * FlexValue) (ps : list (string * FlexValue)) :
  In q (sort_pairs ps) <-> In q ps.
Proof using Type.
  induction ps as [|p ps IH]; simpl; [reflexivity|].
  destruct IH as [IH1 IH2]. split.
  - intros H. apply In_insert_pair in H as [-> | H]; [now left|].
    right. now apply IH1.
  - intros [-> | H]; apply In_insert_pair; [now left|].
    right. now apply IH2.
Qed.

Lemma In_pairs_of (options : list NamedAttribute) (k : string) (v : FlexValue) :
  In (k, v) (pairs_of options)
  <-> exists a, In (k, a) options /\ encoded_value a = Some v.
Proof.
  unfold pairs_of. rewrite in_flat_map. split.
  - intros ([k' a] & Hin & Hv). cbn [fst snd] in Hv.
    destruct (encoded_value a) as [v'|] eqn:He; [|now destruct Hv].
    destruct Hv as [Hv | []]. injection Hv as -> ->. eauto.
  - intros (a & Hin & He). exists (k, a). split; [exact Hin|].
    cbn [fst snd]. rewrite He. now left.
Qed.

Lemma warnings_of_single_calls (options : list NamedAttribute) (loc : Location) :
  Forall (fun pair => list_of_strings (snd pair) = true) options ->
  flat_map (warnings_of loc) options
  = flat_map (fun pair => match BuildOption [] loc pair with
                          | Some (_, _, d) => d
                          | None => []
                          end) options.
Proof.
  induction 1 as [|pair options Hp Hall IH]; [reflexivity|].
  cbn [flat_map]. now rewrite (BuildOption_spec _ _ _ Hp), IH.
Qed.

(** X8: the map of a dictionary is the collection of the entries of its
    attributes: a key is bound to a value in the map exactly when the
    dictionary holds an attribute under that key for which the encoder,
    run on it alone, pushes the key and that value; the warnings of the
    run are those of the single calls, in the order of the dictionary. *)
Theorem X8_map_collects_entries (options : list NamedAttribute) (loc : Location) :
  Forall (fun pair => list_of_strings (snd pair) = true) options ->
  exists entries,
    options_map options loc
    = Some (FMap entries,
            flat_map (fun pair => match BuildOption [] loc pair with
                                  | Some (_, _, d) => d
                                  | None => []
                                  end) options)
    /\ forall k v,
         In (k, v) entries
         <-> exists a r d, In (k, a) options
               /\ BuildOption [] loc (k, a) = Some (r, [FKey k; v], d).
Proof.
  intros Hall. exists (sort_pairs (pairs_of options)). split.
  - rewrite (options_map_spec _ _ Hall).
    now rewrite (warnings_of_single_calls _ _ Hall).
  - intros k v. rewrite In_sort_pairs, In_pairs_of. split.
    + intros (a & Hin & He). exists a.
      assert (Hwf : list_of_strings (snd (k, a)) = true).
      { apply (proj1 (Forall_forall _ _) Hall). now apply list_elem_of_In. }
      rewrite (BuildOption_spec _ _ (k, a) Hwf).
      unfold entry_of. cbn [fst snd app]. rewrite He. eauto.
    + intros (a & r & d & Hin & Hrun). exists a. split; [exact Hin|].
      assert (Hwf : list_of_strings (snd (k, a)) = true).
      { apply (proj1 (Forall_forall _ _) Hall). now apply list_elem_of_In. }
      rewrite (BuildOption_spec _ _ (k, a) Hwf) in Hrun.
      unfold entry_of in Hrun. cbn [fst snd app] in Hrun.
      destruct (encoded_value a); [|discriminate].
      now injection Hrun as _ -> _.
Qed.

(** ** Further properties of the rewrite *)

Lemma BuildOptions_warning_loc (options : list NamedAttribute)
    (loc : Location) (fbb fbb' : Builder) (d : list Diagnostic) :
  BuildOptions options loc fbb = Some (fbb', d) ->
  forall w, In w d -> fst w = loc.
Proof.
  revert fbb fbb' d. induction options as [|pair options IH];
    intros fbb fbb' d Hrun w Hw.
  - injection Hrun as _ <-. now destruct Hw.
  - cbn [BuildOptions] in Hrun.
    destruct (BuildOption fbb loc pair) as [[[r fbb1] d1]|] eqn:Hone;
      [|discriminate].
    cbn [mbind option_bind] in Hrun.
    destruct (BuildOptions options loc fbb1) as [[fbb2 d2]|] eqn:Hrest;
      [|discriminate].
    cbn [mbind option_bind] in Hrun. injection Hrun as _ <-.
    apply in_app_or in Hw as [Hw | Hw].
    + destruct (BuildOption_returns_spec _ _ _ _ _ _ Hone)
        as (_ & _ & _ & _ & _ & Hloc & _). now apply Hloc.
    + exact (IH _ _ _ Hrest w Hw).
Qed.

Lemma legalize_inv (op : Operation) (st : PassState) (o' : Operation)
    (st' : PassState) :
  legalize op st = Some (o', st') ->
  (String.eqb (op_dialect (info_of op)) "stablehlo" = false
   /\ o' = op /\ st' = st)
  \/ (String.eqb (op_dialect (info_of op)) "stablehlo" = true
      /\ exists custom_op_name buffer d,
           let new_id := fresh (dom (st_operands st)) in
           o' = create_CustomOp new_id (op_loc (info_of op))
                  (op_result_types (info_of op)) custom_op_name
                  (CustomOption buffer)
           /\ st_operands st'
              = erase op
                  (replaceAllUsesWith (op_id (info_of op)) new_id
                     (<[new_id := getOperands (op_id (info_of op)) st]>
                        (st_operands st)))
           /\ st_diags st' = st_diags st ++ d
           /\ forall w, In w d -> fst w = op_loc (info_of op)).
Proof.
  unfold legalize.
  destruct (String.eqb (op_dialect (info_of op)) "stablehlo") eqn:Hd;
    cbn [negb].
  2:{ intros H. injection H as <- <-. now left. }
  intros Hrun. right. split; [reflexivity|].
  destruct (name_and_options (info_of op)) as [[name options] d1] eqn:Hname.
  unfold build_custom_op in Hrun.
  destruct (custom_option_buffer options (op_loc (info_of op)))
    as [[buffer d2]|] eqn:Hbuf; [|discriminate].
  cbn [mbind option_bind] in Hrun. injection Hrun as <- <-.
  exists name, buffer, (d1 ++ d2). cbv zeta. cbn [st_operands st_diags].
  repeat split; trivial.
  intros w Hw. apply in_app_or in Hw as [Hw | Hw].
  - unfold name_and_options in Hname.
    destruct (op_composite (info_of op)) as [c|].
    + unfold IsSupportedComposite in Hname.
      destruct (existsb _ _); injection Hname as _ _ <-;
        [now destruct Hw|].
      destruct Hw as [<- | []]. reflexivity.
    + injection Hname as _ _ <-. now destruct Hw.
  - unfold custom_option_buffer in Hbuf.
    destruct (options_map options (op_loc (info_of op)))
      as [[root d]|] eqn:Hmap; [|discriminate].
    cbn [mbind option_bind] in Hbuf. injection Hbuf as _ <-.
    unfold options_map, StartMap in Hmap.
    destruct (BuildOptions options (op_loc (info_of op)) new_Builder)
      as [[fbb d']|] eqn:Hloop; [|discriminate].
    cbn [mbind option_bind] in Hmap.
    destruct (EndMap _ fbb); [|discriminate]. cbn [mbind option_bind] in Hmap.
    destruct (Finish _); [|discriminate]. injection Hmap as _ <-.
    exact (BuildOptions_warning_loc _ _ _ _ _ Hloop w Hw).
Qed.

(** Splits a run of [walk] on an operation, or of [walk_body] on a
    non-empty body, into its two steps. *)
Ltac walk_steps Hrun body1 st1 Hfirst :=
  match type of Hrun with
  | walk (Op _ ?body) ?st = Some _ =>
      cbn [walk] in Hrun;
      destruct (walk_body body st) as [[body1 st1]|] eqn:Hfirst;
        [|discriminate Hrun];
      cbn [mbind option_bind] in Hrun
  | walk_body (BCons _ _ ?o _) ?st = Some _ =>
      cbn [walk_body] in Hrun;
      destruct (walk o st) as [[body1 st1]|] eqn:Hfirst;
        [|discriminate Hrun];
      cbn [mbind option_bind] in Hrun
  end.

(** The second step of [walk_body] on a non-empty body. *)
Ltac walk_rest Hrun rest1 st2 Hrest :=
  match type of Hrun with
  | context [walk_body ?rest ?st1] =>
      destruct (walk_body rest st1) as [[rest1 st2]|] eqn:Hrest;
        [|discriminate Hrun];
      cbn [mbind option_bind] in Hrun
  end.

Lemma walk_no_dialect (o : Operation) (st : PassState) :
  no_dialect_op "stablehlo" o = true -> walk o st = Some (o, st).
Proof.
  revert st.
  induction o using Operation_mut with
    (P0 := fun b => forall st,
             no_dialect_body "stablehlo" b = true ->
             walk_body b st = Some (b, st)).
  - intros st Hno. cbn [no_dialect_op] in Hno.
    apply andb_true_iff in Hno as [Hd Hb]. apply negb_true_iff in Hd.
    cbn [walk]. rewrite (IHo st Hb). cbn [mbind option_bind].
    now apply legalize_other_dialect.
  - reflexivity.
  - intros st Hno. cbn [no_dialect_body] in Hno.
    apply andb_true_iff in Hno as [Ho Hb].
    cbn [walk_body]. rewrite (IHo st Ho). cbn [mbind option_bind].
    rewrite (IHo0 st Hb). reflexivity.
Qed.

Lemma walk_removes_stablehlo (o : Operation) (st : PassState)
    (o' : Operation) (st' : PassState) :
  walk o st = Some (o', st') -> no_dialect_op "stablehlo" o' = true.
Proof.
  revert st o' st'.
  induction o using Operation_mut with
    (P0 := fun b => forall st b' st',
             walk_body b st = Some (b', st') ->
             no_dialect_body "stablehlo" b' = true).
  - intros st o' st' Hrun. walk_steps Hrun body1 st1 Hb.
    apply legalize_inv in Hrun
      as [(Hd & -> & ->) | (Hd & name & buffer & d & -> & _)].
    + cbn [info_of] in Hd. cbn [no_dialect_op]. rewrite Hd.
      apply (IHo _ _ _ Hb).
    + reflexivity.
  - intros st b' st' Hrun. now injection Hrun as <- <-.
  - intros st b' st' Hrun. walk_steps Hrun o1 st1 Ho.
    walk_rest Hrun rest1 st2 Hrest. injection Hrun as <- <-.
    cbn [no_dialect_body]. rewrite (IHo _ _ _ Ho). apply (IHo0 _ _ _ Hrest).
Qed.

(** X9: when the pass returns, no StableHLO operation is left in the
    function. *)
Theorem X9_pass_removes_every_stablehlo_op (fn : Operation) (st : PassState)
    (fn' : Operation) (st' : PassState) :
  runOnOperation fn st = Some (fn', st') ->
  no_dialect_op "stablehlo" fn' = true.
Proof.
  apply walk_removes_stablehlo.
Qed.

(** X10: the pass is idempotent: run again on its own result, it returns
    that result, with the same operand store and diagnostics. *)
Theorem X10_pass_idempotent (fn : Operation) (st : PassState)
    (fn' : Operation) (st' : PassState) :
  runOnOperation fn st = Some (fn', st') ->
  runOnOperation fn' st' = Some (fn', st').
Proof.
  intros Hrun. apply walk_no_dialect.
  exact (walk_removes_stablehlo _ _ _ _ Hrun).
Qed.

Lemma walk_diags (o : Operation) (st : PassState) (o' : Operation)
    (st' : PassState) :
  walk o st = Some (o', st') ->
  exists d, st_diags st' = st_diags st ++ d
            /\ forall w, In w d -> In (fst w) (op_locs o).
Proof.
  revert st o' st'.
  induction o using Operation_mut with
    (P0 := fun b => forall st b' st',
             walk_body b st = Some (b', st') ->
             exists d, st_diags st' = st_diags st ++ d
                       /\ forall w, In w d -> In (fst w) (body_locs b)).
  - intros st o' st' Hrun. walk_steps Hrun body1 st1 Hb.
    destruct (IHo _ _ _ Hb) as (d1 & Hd1 & Hloc1).
    apply legalize_inv in Hrun
      as [(Hd & -> & ->) | (Hd & name & buffer & d & _ & _ & Hdiags & Hloc)].
    + exists d1. split; [exact Hd1|]. intros w Hw. cbn [op_locs].
      right. now apply Hloc1.
    + exists (d1 ++ d). rewrite Hdiags, Hd1, app_assoc.
      split; [reflexivity|]. intros w Hw. cbn [op_locs].
      apply in_app_or in Hw as [Hw | Hw].
      * right. now apply Hloc1.
      * left. symmetry. exact (Hloc w Hw).
  - intros st b' st' Hrun. injection Hrun as <- <-. exists [].
    split; [now rewrite app_nil_r|]. intros w [].
  - intros st b' st' Hrun. walk_steps Hrun o1 st1 Ho.
    walk_rest Hrun rest1 st2 Hrest. injection Hrun as <- <-.
    destruct (IHo _ _ _ Ho) as (d1 & Hd1 & Hloc1).
    destruct (IHo0 _ _ _ Hrest) as (d2 & Hd2 & Hloc2).
    exists (d1 ++ d2). rewrite Hd2, Hd1, app_assoc.
    split; [reflexivity|]. intros w Hw. cbn [body_locs].
    apply in_or_app. apply in_app_or in Hw as [Hw | Hw]; auto.
Qed.

(** X11: the pass only adds diagnostics: those it finds stay, in their
    order, at the front, and every one it adds is located at an operation
    of the function. *)
Theorem X11_diagnostics_only_grow (fn : Operation) (st : PassState)
    (fn' : Operation) (st' : PassState) :
  runOnOperation fn st = Some (fn', st') ->
  exists d, st_diags st' = st_diags st ++ d
            /\ forall w, In w d -> In (fst w) (op_locs fn).
Proof.
  apply walk_diags.
Qed.



Lemma custom_option_buffer_returns (options : list NamedAttribute)
    (loc : Location) :
  forallb (fun pair => list_of_strings (snd pair)) options = true ->
  exists buffer d, custom_option_buffer options loc = Some (buffer, d).
Proof.
  intros Hall.
  assert (HF : Forall (fun pair => list_of_strings (snd pair) = true) options).
  { apply Forall_forall. intros x Hx. apply list_elem_of_In in Hx.
    exact (proj1 (forallb_forall _ _) Hall x Hx). }
  unfold custom_option_buffer. rewrite (options_map_spec _ _ HF).
  cbn [mbind option_bind]. eauto.
Qed.

Lemma walk_returns (o : Operation) (st : PassState) :
  lists_hold_strings o = true -> exists o' st', walk o st = Some (o', st').
Proof.
  revert st.
  induction o using Operation_mut with
    (P0 := fun b => forall st,
             lists_hold_strings_body b = true ->
             exists b' st', walk_body b st = Some (b', st')).
  - intros st Hok. cbn [lists_hold_strings] in Hok.
    apply andb_true_iff in Hok as [Hself Hbody].
    destruct (IHo st Hbody) as (body1 & st1 & Hb).
    cbn [walk]. rewrite Hb. cbn [mbind option_bind].
    unfold legalize. cbn [info_of].
    destruct (String.eqb (op_dialect info) "stablehlo"); cbn [negb]; eauto.
    unfold chosen_options in Hself.
    destruct (name_and_options info) as [[name options] d1].
    cbn [fst snd] in Hself.
    destruct (custom_option_buffer_returns options (op_loc info) Hself)
      as (buffer & d2 & Hbuf).
    unfold build_custom_op. cbn [info_of]. rewrite Hbuf.
    cbn [mbind option_bind]. eauto.
  - intros st _. simpl. eauto.
  - intros st Hok. cbn [lists_hold_strings_body] in Hok.
    apply andb_true_iff in Hok as [Ho Hrest].
    destruct (IHo st Ho) as (o1 & st1 & Hrun1).
    destruct (IHo0 st1 Hrest) as (rest1 & st2 & Hrun2).
    cbn [walk_body]. rewrite Hrun1. cbn [mbind option_bind].
    rewrite Hrun2. cbn [mbind option_bind]. eauto.
Qed.

(** X13: the pass returns whenever, in every StableHLO operation of the
    function, the lists among the attributes to encode hold strings and
    precision tags only; no other attribute can stop it. *)
Theorem X13_pass_returns (fn : Operation) (st : PassState) :
  lists_hold_strings fn = true ->
  exists fn' st', runOnOperation fn st = Some (fn', st').
Proof.
  apply walk_returns.
Qed.

Lemma erased_ids_op_ids (o : Operation) (u : nat) :
  u ∈ erased_ids o -> u ∈ op_ids o.
Proof.
  induction o using Operation_mut with
    (P0 := fun b => u ∈ erased_ids_body b -> u ∈ body_ids b).
  - cbn [erased_ids op_ids].
    destruct (String.eqb (op_dialect info) "stablehlo"); [trivial|].
    intros Hin. apply elem_of_cons. right. now apply IHo.
  - trivial.
  - cbn [erased_ids_body body_ids]. rewrite !elem_of_app.
    intros [Hin | Hin]; [left; now apply IHo|right; now apply IHo0].
Qed.

Lemma erased_ids_op_ids_body (b : Body) (u : nat) :
  u ∈ erased_ids_body b -> u ∈ body_ids b.
Proof.
  induction b as [|region block o rest IH]; [trivial|].
  cbn [erased_ids_body body_ids]. rewrite !elem_of_app.
  intros [Hin | Hin]; [left; now apply erased_ids_op_ids|right; now apply IH].
Qed.

Lemma renamed_refl (ops : list Value) : Forall2 renamed ops ops.
Proof.
  induction ops as [|v ops IH]; constructor; trivial.
  destruct v; simpl; eauto.
Qed.

Lemma renamed_rewire (old new : nat) (ops ops1 : list Value) :
  Forall2 renamed ops ops1 ->
  Forall2 renamed ops (map (rewire old new) ops1).
Proof.
  induction 1 as [|v v1 ops ops1 Hv _ IH]; simpl; constructor; trivial.
  destruct v as [owner k|b k]; simpl in *.
  - destruct Hv as (owner1 & ->). simpl.
    destruct (Nat.eqb owner1 old); eauto.
  - subst v1. reflexivity.
Qed.

Lemma renamed_trans (ops ops1 ops2 : list Value) :
  Forall2 renamed ops ops1 -> Forall2 renamed ops1 ops2 ->
  Forall2 renamed ops ops2.
Proof.
  intros H1. revert ops2.
  induction H1 as [|v v1 ops ops1 Hv _ IH]; intros ops2 H2;
    inversion H2 as [|? v2 ? ops2' Hv2 Hrest]; subst; constructor; auto.
  destruct v as [owner k|b k]; simpl in *.
  - destruct Hv as (owner1 & ->). simpl in Hv2. exact Hv2.
  - subst v1. simpl in Hv2. exact Hv2.
Qed.

Lemma walk_survivors (u : nat) (o : Operation) (st : PassState)
    (o' : Operation) (st' : PassState) (ops : list Value) :
  walk o st = Some (o', st') ->
  st_operands st !! u = Some ops ->
  (u ∉ op_ids o -> u ∉ op_ids o')
  /\ (u ∉ erased_ids o ->
      exists ops', st_operands st' !! u = Some ops'
                   /\ Forall2 renamed ops ops').
Proof.
  revert st o' st' ops.
  induction o using Operation_mut with
    (P0 := fun b => forall st b' st' ops,
             walk_body b st = Some (b', st') ->
             st_operands st !! u = Some ops ->
             (u ∉ body_ids b -> u ∉ body_ids b')
             /\ (u ∉ erased_ids_body b ->
                 exists ops', st_operands st' !! u = Some ops'
                              /\ Forall2 renamed ops ops')).
  - intros st o' st' ops Hrun Hu. walk_steps Hrun body1 st1 Hb.
    destruct (IHo _ _ _ _ Hb Hu) as [Hids Hkeep].
    apply legalize_inv in Hrun
      as [(Hd & -> & ->) | (Hd & name & buffer & d & -> & Hops & _)];
      cbn [info_of] in *; cbn [erased_ids]; rewrite Hd.
    + split; [|exact Hkeep]. cbn [op_ids]. rewrite !not_elem_of_cons.
      intros [Hne Hnin]. split; [exact Hne|now apply Hids].
    + assert (Hout : u ∉ op_id info :: body_ids body ->
                     exists ops1, st_operands st1 !! u = Some ops1
                                  /\ Forall2 renamed ops ops1
                                  /\ u <> fresh (dom (st_operands st1))
                                  /\ u ∉ op_ids (Op info body1)).
      { intros Hnin. apply not_elem_of_cons in Hnin as [Hne Hnin].
        destruct Hkeep as (ops1 & Hu1 & Hren).
        { intros Hin. apply Hnin. apply (erased_ids_op_ids_body _ _ Hin). }
        exists ops1. repeat split; trivial.
        - intros ->. apply (is_fresh (dom (st_operands st1))).
          apply elem_of_dom. eauto.
        - cbn [op_ids]. apply not_elem_of_cons. split; [exact Hne|].
          now apply Hids. }
      split.
      * intros Hnin. destruct (Hout Hnin) as (_ & _ & _ & Hne & _).
        cbn [create_CustomOp op_ids body_ids op_id].
        apply not_elem_of_cons. split; [exact Hne|apply not_elem_of_nil].
      * intros Hnin. destruct (Hout Hnin) as (ops1 & Hu1 & Hren & Hne & Hnin1).
        exists (map (rewire (op_id info) (fresh (dom (st_operands st1)))) ops1).
        split; [|now apply renamed_rewire].
        rewrite Hops. unfold erase, replaceAllUsesWith.
        rewrite lookup_erase_notin by exact Hnin1.
        rewrite lookup_fmap, lookup_insert_ne by congruence.
        now rewrite Hu1.
  - intros st b' st' ops Hrun Hu. injection Hrun as <- <-.
    split; [trivial|intros _]. exists ops. split; [exact Hu|apply renamed_refl].
  - intros st b' st' ops Hrun Hu. walk_steps Hrun o1 st1 Ho.
    walk_rest Hrun rest1 st2 Hrest. injection Hrun as <- <-.
    destruct (IHo _ _ _ _ Ho Hu) as [Hids1 Hkeep1].
    cbn [body_ids erased_ids_body]. rewrite !not_elem_of_app. split.
    + intros [Hn1 Hn2]. split; [now apply Hids1|].
      destruct Hkeep1 as (ops1 & Hu1 & _).
      { intros Hin. apply Hn1. now apply erased_ids_op_ids. }
      now apply (IHo0 _ _ _ _ Hrest Hu1).
    + intros [Hn1 Hn2]. destruct (Hkeep1 Hn1) as (ops1 & Hu1 & Hren1).
      destruct (IHo0 _ _ _ _ Hrest Hu1) as [_ Hkeep2].
      destruct (Hkeep2 Hn2) as (ops2 & Hu2 & Hren2).
      exists ops2. split; [exact Hu2|]. exact (renamed_trans _ _ _ Hren1 Hren2).
Qed.

(** X14: an operation that is not a StableHLO operation and is not nested
    in one keeps its operand list through the pass, up to the renaming of
    replaced results: the list has the same length, a block argument
    stays what it is, and a use of result [k] of an operation is still a
    use of result [k]. *)
Theorem X14_surviving_operands (fn : Operation) (st : PassState)
    (fn' : Operation) (st' : PassState) (u : nat) (ops : list Value) :
  runOnOperation fn st = Some (fn', st') ->
  st_operands st !! u = Some ops ->
  u ∉ erased_ids fn ->
  exists ops', st_operands st' !! u = Some ops'
               /\ Forall2 renamed ops ops'
               /\ length ops' = length ops.
Proof.
  intros Hrun Hu Hnin.
  destruct (walk_survivors u _ _ _ _ _ Hrun Hu) as [_ Hkeep].
  destruct (Hkeep Hnin) as (ops' & Hu' & Hren).
  exists ops'. split; [exact Hu'|]. split; [exact Hren|].
  symmetry. apply (Forall2_length _ _ _ Hren).
Qed.

End Pass.

(** ** The properties at the sample inputs *)

Local Abbreviation sample_BuildOption :=
  (BuildOption stablehlo_stringifyPrecision
     stablehlo_stringifyComparisonDirection stablehlo_stringifyComparisonType).

Local Abbreviation sample_options_map :=
  (options_map stablehlo_stringifyPrecision
     stablehlo_stringifyComparisonDirection stablehlo_stringifyComparisonType).

Local Abbreviation sample_legalize :=
  (legalize stablehlo_stringifyPrecision
     stablehlo_stringifyComparisonDirection stablehlo_stringifyComparisonType
     sample_WriteAny_root sample_StoredPackedType sample_root_byte_width).

Local Abbreviation sample_runOnOperation :=
  (runOnOperation stablehlo_stringifyPrecision
     stablehlo_stringifyComparisonDirection stablehlo_stringifyComparisonType
     sample_WriteAny_root sample_StoredPackedType sample_root_byte_width).

Lemma C2_witness :
  sample_BuildOption [] 7 ("coeffs", ElementsAttr (IntegerElements 32 [1; 2; 3]%Z))
  = Some (success,
          [FKey "coeffs"; FVector true [FInt 1; FInt 2; FInt 3]], []).
Proof.
  apply (proj1 (C2_elements_typed_vector stablehlo_stringifyPrecision
                  stablehlo_stringifyComparisonDirection
                  stablehlo_stringifyComparisonType [] 7 "coeffs")
           32 [1; 2; 3]%Z).
  simpl. right. left. reflexivity.
Defined.

(** C2, as stated, at a tensor of 8-bit integers: no element is emitted. *)
Lemma C2_counterexample_i8 :
  sample_BuildOption [] 7 ("coeffs", ElementsAttr (IntegerElements 8 [1; 2; 3]%Z))
  = Some (success, [FKey "coeffs"; FVector true []],
          [(7, warn_elements "coeffs")])
  /\ sample_BuildOption [] 7
       ("coeffs", ElementsAttr (IntegerElements 8 [1; 2; 3]%Z))
     <> Some (success,
              [FKey "coeffs"; FVector true [FInt 1; FInt 2; FInt 3]], []).
Proof.
  split; [reflexivity|discriminate].
Qed.



(** C4, at a list of two integers: the encoder warns and returns with the
    key on the stack and no vector after it; the entry of the next
    attribute lands behind the stray key and the map cannot be closed. *)
Theorem C4_rejected_list_leaves_stray_key :
  let bad := ("bad", ArrayAttr [IntegerAttr 1%Z; IntegerAttr 2%Z]) in
  sample_BuildOption [] 7 bad
  = Some (success, [FKey "bad"], [(7, warn_array "bad")])
  /\ BuildOptions stablehlo_stringifyPrecision
       stablehlo_stringifyComparisonDirection stablehlo_stringifyComparisonType
       [bad; ("z", IntegerAttr 3%Z)] 7 []
     = Some ([FKey "bad"; FKey "z"; FInt 3], [(7, warn_array "bad")])
  /\ sample_options_map [bad] 7 = None
  /\ sample_options_map [bad; ("z", IntegerAttr 3%Z)] 7 = None.
Proof.
  repeat split; reflexivity.
Qed.

(** C5, at a list of one integer: the list passes the test of the branch,
    and the loop reads a string out of the null attribute. *)
Theorem C5_single_integer_element_aborts :
  array_rejected [IntegerAttr 7%Z] = false
  /\ sample_BuildOption [] 7 ("k", ArrayAttr [IntegerAttr 7%Z]) = None
  /\ sample_BuildOption [] 7 ("k", ArrayAttr [StringAttr "a"; IntegerAttr 7%Z])
     = None.
Proof.
  repeat split; reflexivity.
Qed.

Lemma X17_witness :
  exists entries,
    sample_options_map
      [("axis", IntegerAttr 1%Z); ("sym", SymbolRefAttr "f");
       ("unit", UnitAttr); ("window", DenseI64ArrayAttr [2; 2]%Z)] 7
    = Some (FMap entries,
            [(7, warn_default "sym"); (7, warn_default "unit")])
    /\ map fst entries = ["axis"; "window"].
Proof.
  destruct (X17_sorted_dictionary_keys_in_order stablehlo_stringifyPrecision
              stablehlo_stringifyComparisonDirection
              stablehlo_stringifyComparisonType
              [("axis", IntegerAttr 1%Z); ("sym", SymbolRefAttr "f");
               ("unit", UnitAttr); ("window", DenseI64ArrayAttr [2; 2]%Z)] 7)
    as (entries & Hmap & Hkeys & _).
  - repeat (constructor; [first [left; reflexivity | right; reflexivity]|]).
    constructor.
  - repeat constructor; reflexivity.
  - exists entries. split; [exact Hmap|exact Hkeys].
Defined.

Lemma X16_witness :
  exists o' st',
    sample_legalize (Op sample_add_info BNil) sample_state = Some (o', st')
    /\ op_attrs (info_of o')
       = [("custom_code", StringAttr "stablehlo.add");
          ("custom_option",
           ConstBytesAttr
             (GetBuffer sample_WriteAny_root sample_StoredPackedType
                sample_root_byte_width
                (FMap [("axis", FInt 1);
                       ("scale", FFloat 4612811918334230528%Z)])))]
    /\ st_operands st' !! op_id (info_of o')
       = Some [BlockArgument 0 0; BlockArgument 0 1]
    /\ st_operands st' !! 2 = Some [OpResult (op_id (info_of o')) 0]
    /\ st_operands st' !! 1 = None.
Proof.
  pose proof (X16_replacement_node stablehlo_stringifyPrecision
                stablehlo_stringifyComparisonDirection
                stablehlo_stringifyComparisonType
                sample_WriteAny_root sample_StoredPackedType
                sample_root_byte_width
                sample_add_info BNil sample_state
                [BlockArgument 0 0; BlockArgument 0 1]
                eq_refl eq_refl eq_refl) as H.
  cbv zeta in H.
  destruct H
    as (st' & Hrun & _ & Hnew & Huses & Hres & _ & _ & Herased & _).
  - intros k Hin. apply list_elem_of_In in Hin. simpl in Hin.
    destruct Hin as [Hin | [Hin | []]]; discriminate Hin.
  - constructor.
  - eexists _, st'. split; [exact Hrun|]. cbn [info_of op_attrs op_id].
    split; [reflexivity|]. split; [exact Hnew|]. split.
    + rewrite (Huses 2 [OpResult 1 0]).
      * simpl. reflexivity.
      * intros Hin. apply list_elem_of_In in Hin. simpl in Hin.
        destruct Hin as [Hin | []]. discriminate Hin.
      * reflexivity.
    + apply Herased. apply list_elem_of_In. simpl. now left.
Defined.

(** C1, at a custom call that names one called computation: the list of
    one symbol passes the test of the list branch, the loop reads a
    string out of the null attribute, and the callback does not return:
    no replacement is constructed and the operation is not erased. *)
Theorem C1_list_attribute_stops_replacement :
  array_rejected [SymbolRefAttr "f"] = false
  /\ sample_BuildOption [] 5
       ("called_computations", ArrayAttr [SymbolRefAttr "f"]) = None
  /\ sample_legalize (Op sample_custom_call_info BNil) sample_state = None
  /\ sample_runOnOperation
       (Op sample_func_info
          (BCons 0 0 (Op sample_custom_call_info BNil)
             (BCons 0 0 sample_return BNil)))
       sample_state
     = None.
Proof.
  repeat split; reflexivity.
Qed.

(** C8, at a dictionary that holds a list of two integers between an
    integer and a unit attribute: the key of the list stays on the stack
    without a value and no map comes out, so that the supported keys are
    not in it. *)
Theorem C8_rejected_list_breaks_the_map :
  let options :=
    [("axis", IntegerAttr 1%Z);
     ("bad", ArrayAttr [IntegerAttr 1%Z; IntegerAttr 2%Z]);
     ("unit", UnitAttr)] in
  StronglySorted (@key_le Attribute) options
  /\ map (fun pair => handled (snd pair)) options = [true; true; false]
  /\ BuildOptions stablehlo_stringifyPrecision
       stablehlo_stringifyComparisonDirection stablehlo_stringifyComparisonType
       options 7 []
     = Some ([FKey "axis"; FInt 1; FKey "bad"],
             [(7, warn_array "bad"); (7, warn_default "unit")])
  /\ sample_options_map options 7 = None.
Proof.
  cbv zeta. split; [repeat constructor; reflexivity|].
  repeat split; reflexivity.
Qed.


Lemma C9_witness :
  sample_runOnOperation (Op sample_func_info (BCons 0 0 sample_return BNil))
    sample_state
  = Some (Op sample_func_info (BCons 0 0 sample_return BNil), sample_state).
Proof.
  apply (C9_no_stablehlo_is_noop stablehlo_stringifyPrecision
           stablehlo_stringifyComparisonDirection
           stablehlo_stringifyComparisonType
           sample_WriteAny_root sample_StoredPackedType sample_root_byte_width).
  reflexivity.
Defined.

Lemma C10_witness :
  exists o' st',
    sample_legalize (Op sample_bare_info BNil) sample_state = Some (o', st')
    /\ op_attrs (info_of o')
       = [("custom_code", StringAttr "stablehlo.abs");
          ("custom_option",
           ConstBytesAttr
             (string_of_list_ascii
                (map ascii_of_nat [0; 0; 1; 0; 0; 36; 1])))]
    /\ root_map_size
         (string_of_list_ascii (map ascii_of_nat [0; 0; 1; 0; 0; 36; 1]))
       = Some 0.
Proof.
  pose proof (C10_empty_attribute_set stablehlo_stringifyPrecision
                stablehlo_stringifyComparisonDirection
                stablehlo_stringifyComparisonType
                sample_WriteAny_root sample_StoredPackedType
                sample_root_byte_width
                sample_bare_info BNil sample_state eq_refl eq_refl eq_refl)
    as H.
  cbv zeta in H. destruct H as (Hrun & _ & _ & _ & _ & Hread).
  eexists _, _. split; [exact Hrun|]. split; [reflexivity|exact Hread].
Defined.

(** The whole pass on the sample function: the addition is replaced in
    place, before the return, and the return now uses the replacement. *)
Example runOnOperation_sample_function :
  exists st',
    sample_runOnOperation
      (Op sample_func_info
         (BCons 0 0 (Op sample_add_info BNil) (BCons 0 0 sample_return BNil)))
      sample_state
    = Some (Op sample_func_info
              (BCons 0 0
                 (create_CustomOp 3 5 [FloatType F32] "stablehlo.add"
                    (CustomOption
                       (GetBuffer sample_WriteAny_root sample_StoredPackedType
                          sample_root_byte_width
                          (FMap [("axis", FInt 1);
                                 ("scale", FFloat 4612811918334230528%Z)]))))
                 (BCons 0 0 sample_return BNil)), st')
    /\ st_operands st' !! 3 = Some [BlockArgument 0 0; BlockArgument 0 1]
    /\ st_operands st' !! 2 = Some [OpResult 3 0]
    /\ st_operands st' !! 1 = None
    /\ st_diags st' = [].
Proof.
  eexists. split; [vm_compute; reflexivity|].
  repeat split; vm_compute; reflexivity.
Qed.

(** A nested operation is visited before the operation that holds it, and
    goes away with it. *)
Example runOnOperation_nested :
  let inner :=
    Op {| op_id := 2; op_dialect := "stablehlo"; op_name := "stablehlo.return";
          op_attrs := []; op_result_types := []; op_loc := 8;
          op_composite := None |} BNil in
  let outer :=
    Op {| op_id := 1; op_dialect := "stablehlo"; op_name := "stablehlo.reduce";
          op_attrs := [("dimensions", DenseI64ArrayAttr [0%Z])];
          op_result_types := [FloatType F32]; op_loc := 7;
          op_composite := None |} (BCons 0 0 inner BNil) in
  let st :=
    {| st_operands := {[ 0 := []; 1 := [BlockArgument 0 0];
                         2 := [BlockArgument 1 0] ]};
       st_diags := [] |} in
  exists st',
    sample_runOnOperation (Op sample_func_info (BCons 0 0 outer BNil)) st
    = Some (Op sample_func_info
              (BCons 0 0
                 (create_CustomOp 4 7 [FloatType F32] "stablehlo.reduce"
                    (CustomOption
                       (GetBuffer sample_WriteAny_root sample_StoredPackedType
                          sample_root_byte_width
                          (FMap [("dimensions", FVector true [FInt 0])]))))
                 BNil), st')
    /\ st_operands st' !! 4 = Some [BlockArgument 0 0]
    /\ st_operands st' !! 3 = None
    /\ st_operands st' !! 2 = None
    /\ st_operands st' !! 1 = None.
Proof.
  eexists. split; [vm_compute; reflexivity|].
  repeat split; vm_compute; reflexivity.
Qed.

(** ** The further properties at the sample inputs *)

Local Abbreviation sample_function :=
  (Op sample_func_info
     (BCons 0 0 (Op sample_add_info BNil) (BCons 0 0 sample_return BNil))).

Lemma X7_witness :
  exists pushed,
    [FKey "bad"] = [] ++ pushed
    /\ (success = failure
        <-> handled (ArrayAttr [IntegerAttr 1%Z; IntegerAttr 2%Z]) = false).
Proof.
  destruct (X7_stack_discipline stablehlo_stringifyPrecision
              stablehlo_stringifyComparisonDirection
              stablehlo_stringifyComparisonType [] 7
              ("bad", ArrayAttr [IntegerAttr 1%Z; IntegerAttr 2%Z])
              success [FKey "bad"] [(7, warn_array "bad")] eq_refl)
    as (pushed & Hpushed & _ & _ & _ & _ & Hresult).
  exists pushed. split; [exact Hpushed|exact Hresult].
Defined.

Lemma X8_witness :
  exists entries,
    sample_options_map
      [("scale", FloatAttr 4612811918334230528%Z); ("unit", UnitAttr);
       ("axis", IntegerAttr 1%Z)] 7
    = Some (FMap entries, [(7, warn_default "unit")])
    /\ (In ("axis", FInt 1) entries
        <-> exists a r d,
              In ("axis", a)
                [("scale", FloatAttr 4612811918334230528%Z); ("unit", UnitAttr);
                 ("axis", IntegerAttr 1%Z)]
              /\ sample_BuildOption [] 7 ("axis", a)
                 = Some (r, [FKey "axis"; FInt 1], d)).
Proof.
  destruct (X8_map_collects_entries stablehlo_stringifyPrecision
              stablehlo_stringifyComparisonDirection
              stablehlo_stringifyComparisonType
              [("scale", FloatAttr 4612811918334230528%Z); ("unit", UnitAttr);
               ("axis", IntegerAttr 1%Z)] 7)
    as (entries & Hmap & Hin).
  - repeat constructor.
  - exists entries. split; [exact Hmap|apply Hin].
Defined.

Lemma X9_witness :
  exists fn' st',
    sample_runOnOperation sample_function sample_state = Some (fn', st')
    /\ no_dialect_op "stablehlo" fn' = true.
Proof.
  eexists _, _. split; [vm_compute; reflexivity|].
  eapply (X9_pass_removes_every_stablehlo_op stablehlo_stringifyPrecision
            stablehlo_stringifyComparisonDirection
            stablehlo_stringifyComparisonType
            sample_WriteAny_root sample_StoredPackedType sample_root_byte_width
            sample_function sample_state).
  vm_compute. reflexivity.
Defined.

Lemma X10_witness :
  exists fn' st',
    sample_runOnOperation sample_function sample_state = Some (fn', st')
    /\ sample_runOnOperation fn' st' = Some (fn', st').
Proof.
  eexists _, _. split; [vm_compute; reflexivity|].
  eapply (X10_pass_idempotent stablehlo_stringifyPrecision
            stablehlo_stringifyComparisonDirection
            stablehlo_stringifyComparisonType
            sample_WriteAny_root sample_StoredPackedType sample_root_byte_width
            sample_function sample_state).
  vm_compute. reflexivity.
Defined.

Lemma X11_witness :
  exists fn' st' d,
    sample_runOnOperation sample_function sample_state = Some (fn', st')
    /\ st_diags st' = st_diags sample_state ++ d
    /\ forall w, In w d -> In (fst w) (op_locs sample_function).
Proof.
  eexists _, _.
  destruct (X11_diagnostics_only_grow stablehlo_stringifyPrecision
              stablehlo_stringifyComparisonDirection
              stablehlo_stringifyComparisonType
              sample_WriteAny_root sample_StoredPackedType
              sample_root_byte_width
              sample_function sample_state _ _ eq_refl)
    as (d & Hd & Hloc).
  exists d. split; [reflexivity|]. split; [exact Hd|exact Hloc].
Defined.


Lemma X13_witness :
  exists fn' st',
    sample_runOnOperation sample_function sample_state = Some (fn', st').
Proof.
  apply (X13_pass_returns stablehlo_stringifyPrecision
           stablehlo_stringifyComparisonDirection
           stablehlo_stringifyComparisonType
           sample_WriteAny_root sample_StoredPackedType sample_root_byte_width
           sample_function sample_state).
  reflexivity.
Defined.

Lemma X14_witness :
  exists fn' st' ops',
    sample_runOnOperation sample_function sample_state = Some (fn', st')
    /\ st_operands st' !! 2 = Some ops'
    /\ Forall2 renamed [OpResult 1 0] ops'
    /\ length ops' = 1.
Proof.
  eexists _, _.
  destruct (X14_surviving_operands stablehlo_stringifyPrecision
              stablehlo_stringifyComparisonDirection
              stablehlo_stringifyComparisonType
              sample_WriteAny_root sample_StoredPackedType
              sample_root_byte_width
              sample_function sample_state _ _ 2 [OpResult 1 0] eq_refl)
    as (ops' & Hu & Hren & Hlen).
  - reflexivity.
  - intros Hin. apply list_elem_of_In in Hin. simpl in Hin.
    destruct Hin as [Hin | []]. discriminate Hin.
  - exists ops'. split; [reflexivity|]. split; [exact Hu|].
    split; [exact Hren|exact Hlen].
Defined.
